(** * The extension host process: handshake and lifecycle driver

    A shallow embedding of [connectToRenderer] (the handshake of
    vs/workbench/node/pluginHostProcess.ts) and of [PluginHostMain]
    (the lifecycle driver of vs/workbench/node/pluginHostMain.ts):
    plugin discovery and merging, registration, eager activation, the
    optional test run and process termination.

    JavaScript objects used as dictionaries ([resultingPluginsMap],
    [desiredFilesMap]) are finite maps with string keys: the keys are plugin
    ids and file names, the order in which [Object.keys] lists them is not
    part of any statement below, and JavaScript's own treatment of the key
    [__proto__] is outside the model.  Promises are WinJS promises: a
    continuation of a settled promise runs at once.  The process is an event
    loop: one [step] per callback the runtime invokes, every effect of a
    callback appended to a [trace]; delays and periods are recorded, time
    itself is not modelled. *)

From stdpp Require Import gmap strings pretty list fin_maps sorting.

(** ** Data model *)

(** vs/base/common/severity, as far as the message collector uses it. *)
Inductive Severity := Info | Warning | Error.

(** Values that travel as rejection reasons and diagnostics: a string (an
    [Error] is represented by its [toString()]), or the index-to-reason
    array with which a joined promise fails. *)
Inductive JsValue :=
| VString (s : string)
| VErrors (reasons : list (option string)).

(** [IMessage] of vs/platform/plugins/common/plugins. *)
Record IMessage := {
  type : Severity;
  source : string;
  message : JsValue
}.

(** [IPluginDescription]: identity, install location, declared activation
    events ([undefined] when the manifest has none) and the remaining
    manifest entries. *)
Record IPluginDescription := {
  id : string;
  extensionFolderPath : string;
  activationEvents : option (list string);
  manifest : list (string * string)
}.

(** Modelled from the spec: [PluginsMessageCollector] of
    vs/platform/plugins/common/pluginsRegistry (not among the sources):
    diagnostics are collected as messages (error/warning/info), in the
    order they are reported, and [getMessages] hands them out. *)
Definition PluginsMessageCollector := list IMessage.

Definition collector_error (c : PluginsMessageCollector) (src : string) (m : JsValue)
  : PluginsMessageCollector :=
  c ++ [{| type := Error; source := src; message := m |}].

Definition collector_warn (c : PluginsMessageCollector) (src : string) (m : JsValue)
  : PluginsMessageCollector :=
  c ++ [{| type := Warning; source := src; message := m |}].

Definition collector_info (c : PluginsMessageCollector) (src : string) (m : JsValue)
  : PluginsMessageCollector :=
  c ++ [{| type := Info; source := src; message := m |}].

Definition getMessages (c : PluginsMessageCollector) : list IMessage := c.

(** A settled promise. *)
Inductive Settled (A : Type) :=
| Completed (a : A)
| Failed (reason : JsValue).
Arguments Completed {A} a.
Arguments Failed {A} reason.

(** The promise a scanner returns, once settled; a failure carries the
    error's [toString()]. *)
Inductive ScanResult :=
| ScanCompleted (plugins : list IPluginDescription)
| ScanFailed (error : string).

Definition reason_of (p : ScanResult) : option string :=
  match p with ScanCompleted _ => None | ScanFailed e => Some e end.

(** What one run of the plugin scanner does: the diagnostics it pushes on
    the shared collector and the promise it returns. *)
Record Scan := {
  scanMessages : list IMessage;
  scanResult : ScanResult
}.

(** [TPromise.as([])]. *)
Definition TPromise_as_nil : Scan :=
  {| scanMessages := []; scanResult := ScanCompleted [] |}.

(** JavaScript truthiness of a string that may be [undefined]. *)
Definition truthy (s : option string) : bool :=
  match s with
  | Some s => negb (String.eqb s "")
  | None => false
  end.

Definition str (s : option string) : string := default "" s.

(** What the test-runner module exports. *)
Inductive ModuleExports := ExportsFalsy | ExportsWithoutRun | ExportsRun.

Inductive RequireResult :=
| RequireThrows (error : string)
| RequireLoaded (exports : ModuleExports).

(** How an activation request behaves at the moment it is issued: its
    promise is already completed, already failed, or still in flight. *)
Inductive Activation :=
| ActivationCompleted
| ActivationFailed (err : JsValue)
| ActivationInFlight.

(** The collaborators of the driver that are not part of it: the plugin
    scanner (vs/workbench/node/extensionPoints), [paths.join],
    [pfs.fileExists], the plugin service's [activateByEvent] and node's
    [require]. *)
Record Collaborators := {
  BUILTIN_PLUGINS_PATH : string;
  PluginScanner_scanPlugins : string → string → bool → Scan;
  PluginScanner_scanOneOrMultiplePlugins : string → string → bool → Scan;
  paths_join : string → string → string;
  pfs_fileExists : string → bool;
  activateByEvent : string → Activation;
  nodeRequire : string → RequireResult
}.

(** ** Discovery: [PluginHostMain.scanPlugins] *)

Definition overwriteWarning (old new : IPluginDescription) : JsValue :=
  VString ("Overwriting extension " +:+ extensionFolderPath old
           +:+ " with " +:+ extensionFolderPath new).

Definition loadingInfo (p : IPluginDescription) : JsValue :=
  VString ("Loading development extension at " +:+ extensionFolderPath p).

(** Bodies of the three [forEach] loops. [hasOwnProperty] followed by the
    read of the same key is the match on the lookup. *)
Definition addBuiltin (m : gmap string IPluginDescription) (builtinPlugin : IPluginDescription)
  : gmap string IPluginDescription :=
  <[id builtinPlugin := builtinPlugin]> m.

Definition addUser (st : PluginsMessageCollector * gmap string IPluginDescription)
    (userPlugin : IPluginDescription)
  : PluginsMessageCollector * gmap string IPluginDescription :=
  let c := match st.2 !! id userPlugin with
           | Some old => collector_warn st.1 "" (overwriteWarning old userPlugin)
           | None => st.1
           end in
  (c, <[id userPlugin := userPlugin]> st.2).

Definition addDev (st : PluginsMessageCollector * gmap string IPluginDescription)
    (extensionDevPlugin : IPluginDescription)
  : PluginsMessageCollector * gmap string IPluginDescription :=
  let c := collector_info st.1 "" (loadingInfo extensionDevPlugin) in
  let c := match st.2 !! id extensionDevPlugin with
           | Some old => collector_warn c "" (overwriteWarning old extensionDevPlugin)
           | None => c
           end in
  (c, <[id extensionDevPlugin := extensionDevPlugin]> st.2).

(** The continuation of the join: merge the three scanned lists. *)
Definition mergeScanned (collector : PluginsMessageCollector)
    (builtinPlugins userPlugins extensionDevPlugins : list IPluginDescription)
  : PluginsMessageCollector * list IPluginDescription :=
  let resultingPluginsMap := foldl addBuiltin ∅ builtinPlugins in
  let st := foldl addUser (collector, resultingPluginsMap) userPlugins in
  let st := foldl addDev st extensionDevPlugins in
  (st.1, (map_to_list st.2).*2).

(** The three scans [scanPlugins] starts. *)
Definition scannedSources (k : Collaborators) (builtinPluginsPath : string)
    (userInstallPath pluginDevelopmentPath : option string) (version : string)
  : Scan * Scan * Scan :=
  (PluginScanner_scanPlugins k version builtinPluginsPath true,
   if truthy userInstallPath
   then PluginScanner_scanPlugins k version (str userInstallPath) false
   else TPromise_as_nil,
   if truthy pluginDevelopmentPath
   then PluginScanner_scanOneOrMultiplePlugins k version (str pluginDevelopmentPath) false
   else TPromise_as_nil).

(** [scanPlugins]: the scanners report on the shared collector (they run
    concurrently; their messages are taken in the order builtin, user,
    development, and no statement depends on that order). The join settles
    once the three scans have: it fails with the reasons by index if a scan
    failed, otherwise the three lists are merged. *)
Definition scanPlugins (k : Collaborators) (collector : PluginsMessageCollector)
    (builtinPluginsPath : string) (userInstallPath pluginDevelopmentPath : option string)
    (version : string)
  : PluginsMessageCollector * Settled (list IPluginDescription) :=
  let '(builtinPlugins, userPlugins, developedPlugins) :=
    scannedSources k builtinPluginsPath userInstallPath pluginDevelopmentPath version in
  let collector := collector ++ scanMessages builtinPlugins
                     ++ scanMessages userPlugins ++ scanMessages developedPlugins in
  match scanResult builtinPlugins, scanResult userPlugins, scanResult developedPlugins with
  | ScanCompleted b, ScanCompleted u, ScanCompleted d =>
      let r := mergeScanned collector b u d in (r.1, Completed r.2)
  | rb, ru, rd =>
      (collector, Failed (VErrors [reason_of rb; reason_of ru; reason_of rd]))
  end.

(** ** The process as an event loop *)

(** [env] of the configuration and the workspace, as the driver reads
    them. *)
Record Env := {
  userPluginsHome : option string;
  pluginDevelopmentPath : option string;
  pluginTestsPath : option string;
  version : string
}.

(** A workspace, with the file-system path of its resource if it has one. *)
Record Workspace := { resource : option string }.

(** A message on the parent channel. The first one is read as Init Data
    ([parentPid], the context service's workspace and configuration);
    [body] stands for what the remote registry dispatches on. *)
Record Message := {
  parentPid : nat;
  workspace : option Workspace;
  env : Env;
  body : string
}.

Inductive Periodic := ProbeParent (pid : nat) | CheckStats.

(** The effects of the process, in the order they happen. [ScansJoined] and
    [FileChecksJoined] mark the entry of the two continuations that wait
    for a join. *)
Inductive Event :=
| OnceMessage
| Send (data : string)
| OnMessage
| OnUnhandledRejection
| OnUncaughtException
| SetInterval (ms : nat) (what : Periodic)
| SetTimeout (ms : nat)
| Handle (msg : Message)
| ConsoleError (v : JsValue)
| ConsoleWarn (s : string)
| UnexpectedError (v : JsValue)
| Kill (pid : nat) (signal : nat)
| Exit
| Crash (err : JsValue)
| ConnectSharedProcess
| CreateServices
| ScanPlugins (version path : string) (isBuiltin : bool)
| ScanOneOrMultiplePlugins (version path : string) (isBuiltin : bool)
| ScansJoined
| RegisterPlugins (extensions : list IPluginDescription)
| RegistrationDone (messages : list IMessage)
| ActivateByEvent (activationEvent : string)
| FileExistsWithResult (path fileName : string)
| FileChecksJoined
| NodeRequire (path : string)
| RunTests (testsRoot : string).

(** What the runtime can call back with. *)
Inductive Input :=
| ParentMessage (msg : Message)
| SharedProcessConnected
| RemoteSend (data : string)
| UnhandledRejection (reason : JsValue)
| UncaughtException (err : JsValue)
| IntervalFired (n : nat) (killThrows : bool)
| ScanSettled
| FilesSettled
| ActivationSettled (n : nat) (err : option JsValue)
| RunnerCallback (error : option string)
| TimeoutFired (n : nat).

Inductive Listener := InitListener | DispatchListener.

Definition isInitListener (l : Listener) : bool :=
  match l with InitListener => true | DispatchListener => false end.

(** Where [PluginHostMain.start] stands. *)
Inductive Stage :=
| Connecting
| Scanning
| CheckingFiles (folderPath : string) (fileNames : list string)
| RunningTests
| Done (result : Settled unit).

Record State := {
  alive : bool;
  trace : list Event;
  listeners : list Listener;             (* of the 'message' event *)
  handlers : bool;                       (* rejection and exception listeners *)
  intervals : list (nat * Periodic);
  timeouts : list nat;                   (* each one calls process.exit() *)
  stats : list nat;
  renderer : option Message;             (* connectToRenderer's result *)
  shared : bool;                         (* connectToSharedProcess's result *)
  registry : list IPluginDescription;    (* PluginsRegistry *)
  inflight : list string;                (* activation requests not settled *)
  runner : bool;                         (* testRunner.run has been called *)
  stage : Stage
}.

Definition emit (e : Event) (s : State) : State :=
  {| alive := alive s; trace := trace s ++ [e]; listeners := listeners s;
     handlers := handlers s; intervals := intervals s; timeouts := timeouts s;
     stats := stats s; renderer := renderer s; shared := shared s;
     registry := registry s; inflight := inflight s; runner := runner s;
     stage := stage s |}.

Definition set_alive (b : bool) (s : State) : State :=
  {| alive := b; trace := trace s; listeners := listeners s;
     handlers := handlers s; intervals := intervals s; timeouts := timeouts s;
     stats := stats s; renderer := renderer s; shared := shared s;
     registry := registry s; inflight := inflight s; runner := runner s;
     stage := stage s |}.

Definition set_listeners (l : list Listener) (s : State) : State :=
  {| alive := alive s; trace := trace s; listeners := l;
     handlers := handlers s; intervals := intervals s; timeouts := timeouts s;
     stats := stats s; renderer := renderer s; shared := shared s;
     registry := registry s; inflight := inflight s; runner := runner s;
     stage := stage s |}.

Definition set_handlers (b : bool) (s : State) : State :=
  {| alive := alive s; trace := trace s; listeners := listeners s;
     handlers := b; intervals := intervals s; timeouts := timeouts s;
     stats := stats s; renderer := renderer s; shared := shared s;
     registry := registry s; inflight := inflight s; runner := runner s;
     stage := stage s |}.

Definition set_intervals (l : list (nat * Periodic)) (s : State) : State :=
  {| alive := alive s; trace := trace s; listeners := listeners s;
     handlers := handlers s; intervals := l; timeouts := timeouts s;
     stats := stats s; renderer := renderer s; shared := shared s;
     registry := registry s; inflight := inflight s; runner := runner s;
     stage := stage s |}.

Definition set_timeouts (l : list nat) (s : State) : State :=
  {| alive := alive s; trace := trace s; listeners := listeners s;
     handlers := handlers s; intervals := intervals s; timeouts := l;
     stats := stats s; renderer := renderer s; shared := shared s;
     registry := registry s; inflight := inflight s; runner := runner s;
     stage := stage s |}.

Definition set_stats (l : list nat) (s : State) : State :=
  {| alive := alive s; trace := trace s; listeners := listeners s;
     handlers := handlers s; intervals := intervals s; timeouts := timeouts s;
     stats := l; renderer := renderer s; shared := shared s;
     registry := registry s; inflight := inflight s; runner := runner s;
     stage := stage s |}.

Definition set_renderer (r : option Message) (s : State) : State :=
  {| alive := alive s; trace := trace s; listeners := listeners s;
     handlers := handlers s; intervals := intervals s; timeouts := timeouts s;
     stats := stats s; renderer := r; shared := shared s;
     registry := registry s; inflight := inflight s; runner := runner s;
     stage := stage s |}.

Definition set_shared (b : bool) (s : State) : State :=
  {| alive := alive s; trace := trace s; listeners := listeners s;
     handlers := handlers s; intervals := intervals s; timeouts := timeouts s;
     stats := stats s; renderer := renderer s; shared := b;
     registry := registry s; inflight := inflight s; runner := runner s;
     stage := stage s |}.

Definition set_registry (l : list IPluginDescription) (s : State) : State :=
  {| alive := alive s; trace := trace s; listeners := listeners s;
     handlers := handlers s; intervals := intervals s; timeouts := timeouts s;
     stats := stats s; renderer := renderer s; shared := shared s;
     registry := l; inflight := inflight s; runner := runner s;
     stage := stage s |}.

Definition set_inflight (l : list string) (s : State) : State :=
  {| alive := alive s; trace := trace s; listeners := listeners s;
     handlers := handlers s; intervals := intervals s; timeouts := timeouts s;
     stats := stats s; renderer := renderer s; shared := shared s;
     registry := registry s; inflight := l; runner := runner s;
     stage := stage s |}.

Definition set_runner (b : bool) (s : State) : State :=
  {| alive := alive s; trace := trace s; listeners := listeners s;
     handlers := handlers s; intervals := intervals s; timeouts := timeouts s;
     stats := stats s; renderer := renderer s; shared := shared s;
     registry := registry s; inflight := inflight s; runner := b;
     stage := stage s |}.

Definition set_stage (st : Stage) (s : State) : State :=
  {| alive := alive s; trace := trace s; listeners := listeners s;
     handlers := handlers s; intervals := intervals s; timeouts := timeouts s;
     stats := stats s; renderer := renderer s; shared := shared s;
     registry := registry s; inflight := inflight s; runner := runner s;
     stage := st |}.

(** [process.exit()]. *)
Definition exit (s : State) : State := set_alive false (emit Exit s).

(** [setTimeout(() => process.exit(), ms)]. *)
Definition setTimeout_exit (ms : nat) (s : State) : State :=
  set_timeouts (timeouts s ++ [ms]) (emit (SetTimeout ms) s).

(** [setInterval(f, ms)]. *)
Definition setInterval (ms : nat) (what : Periodic) (s : State) : State :=
  set_intervals (intervals s ++ [(ms, what)]) (emit (SetInterval ms what) s).

(** ** The lifecycle driver: [PluginHostMain] *)

(** Modelled from the spec: [PluginsRegistry] of
    vs/platform/plugins/common/pluginsRegistry (not among the sources): the
    Plugin Registry is the published mapping from id to Plugin Descriptor,
    empty at process start, populated exactly once per process via a single
    registration call and read-only thereafter. *)
Definition registerPlugins (extensions : list IPluginDescription) (s : State) : State :=
  emit (RegisterPlugins extensions) (set_registry extensions s).

Definition getAllPluginDescriptions (s : State) : list IPluginDescription :=
  registry s.

(** [this.pluginService.registrationDone(messages)]: the plugin service is
    notified; what it does with the messages is not the driver's. *)
Definition registrationDone (messages : list IMessage) (s : State) : State :=
  emit (RegistrationDone messages) s.

(** The promise of [start()] settles; the caller's
    [.done(null, err => console.error(err))] reports a failure. *)
Definition settle (r : Settled unit) (s : State) : State :=
  let s := set_stage (Done r) s in
  match r with
  | Completed _ => s
  | Failed err => emit (ConsoleError err) s
  end.

(** [this.pluginService.activateByEvent(e).then(null, err => console.error(err))]:
    the request is issued and nobody waits for it. *)
Definition requestActivation (k : Collaborators) (activationEvent : string) (s : State)
  : State :=
  let s := emit (ActivateByEvent activationEvent) s in
  match activateByEvent k activationEvent with
  | ActivationCompleted => s
  | ActivationFailed err => emit (ConsoleError err) s
  | ActivationInFlight => set_inflight (inflight s ++ [activationEvent]) s
  end.

(** The default text of the localized [pluginTestError] message. *)
Definition pluginTestError (path : string) : string :=
  "Path " +:+ path +:+ " does not point to a valid extension test runner.".

Definition handlePluginTests (k : Collaborators) (e : Env) (s : State) : State :=
  if negb (truthy (pluginTestsPath e)) || negb (truthy (pluginDevelopmentPath e))
  then settle (Completed ()) s
  else
    let path := str (pluginTestsPath e) in
    let s := emit (NodeRequire path) s in
    match nodeRequire k path with
    | RequireLoaded ExportsRun =>
        set_stage RunningTests (set_runner true (emit (RunTests path) s))
    | RequireLoaded _ =>
        settle (Failed (VString (pluginTestError path))) (setTimeout_exit 0 s)
    | RequireThrows error =>
        settle (Failed (VString error)) (setTimeout_exit 0 s)
    end.

(** The callback handed to [testRunner.run]. Only its first call settles
    the promise; every call schedules the exit. *)
Definition runnerCallback (error : option string) (s : State) : State :=
  let s := match stage s with
           | RunningTests =>
               settle (match error with
                       | Some e => Failed (VString e)
                       | None => Completed ()
                       end) s
           | _ => s
           end in
  setTimeout_exit 800 s.

(** [s.substr(start)]. *)
Fixpoint substr (start : nat) (s : string) : string :=
  match start, s with
  | 0, _ => s
  | S n, String _ r => substr n r
  | S _, EmptyString => EmptyString
  end.

Definition workspaceContains : string := "workspaceContains:".

(** The loop over one descriptor's activation events. *)
Definition desiredFilesOf (m : gmap string bool) (activationEvents : list string)
  : gmap string bool :=
  foldl (λ m e, if String.prefix workspaceContains e
                then <[substr (String.length workspaceContains) e := true]> m
                else m)
        m activationEvents.

Definition desiredFilesMap (descs : list IPluginDescription) : gmap string bool :=
  foldl (λ m desc, match activationEvents desc with
                   | None => m
                   | Some events => desiredFilesOf m events
                   end)
        ∅ descs.

(** Modelled from the spec: [pfs.fileExistsWithResult] (vs/base/node/pfs is
    not among the sources): check whether the named file exists; the result
    is the given file name when it is present and [null] otherwise. *)
Definition fileExistsWithResult (k : Collaborators) (path fileName : string)
  : option string :=
  if pfs_fileExists k path then Some fileName else None.

(** The continuation of the join of the existence checks. *)
Definition filesChecked (k : Collaborators) (init : Message) (folderPath : string)
    (fileNames : list string) (s : State) : State :=
  let s := emit FileChecksJoined s in
  let results :=
    map (λ fileName, fileExistsWithResult k (paths_join k folderPath fileName) fileName)
        fileNames in
  let s := foldl (λ s existingFileName,
                    if truthy existingFileName
                    then requestActivation k (workspaceContains +:+ str existingFileName) s
                    else s)
                 s results in
  handlePluginTests k (env init) s.

Definition handleWorkspaceContainsEagerPlugins (k : Collaborators) (init : Message)
    (s : State) : State :=
  match workspace init with
  | Some {| resource := Some folderPath |} =>
      let fileNames := (map_to_list (desiredFilesMap (getAllPluginDescriptions s))).*1 in
      let s := foldl (λ s fileName,
                        emit (FileExistsWithResult (paths_join k folderPath fileName)
                                                   fileName) s)
                     s fileNames in
      match fileNames with
      | [] => filesChecked k init folderPath [] s
      | _ => set_stage (CheckingFiles folderPath fileNames) s
      end
  | _ => handlePluginTests k (env init) s
  end.

Definition handleEagerPlugins (k : Collaborators) (init : Message) (s : State) : State :=
  handleWorkspaceContainsEagerPlugins k init (requestActivation k "*" s).

(** [readPlugins] up to the join of the scans ... *)
Definition readPlugins (k : Collaborators) (init : Message) (s : State) : State :=
  let e := env init in
  let s := emit (ScanPlugins (version e) (BUILTIN_PLUGINS_PATH k) true) s in
  let s := if truthy (userPluginsHome e)
           then emit (ScanPlugins (version e) (str (userPluginsHome e)) false) s
           else s in
  let s := if truthy (pluginDevelopmentPath e)
           then emit (ScanOneOrMultiplePlugins (version e)
                        (str (pluginDevelopmentPath e)) false) s
           else s in
  set_stage Scanning s.

(** ... and from there on: recover from a failed scan, register, signal,
    activate eagerly, run the tests. *)
Definition pluginsScanned (k : Collaborators) (init : Message) (s : State) : State :=
  let e := env init in
  let s := emit ScansJoined s in
  let scanned := scanPlugins k [] (BUILTIN_PLUGINS_PATH k) (userPluginsHome e)
                   (pluginDevelopmentPath e) (version e) in
  let collector := match scanned.2 with
                   | Completed _ => scanned.1
                   | Failed err => collector_error scanned.1 "" err
                   end in
  let extensions := match scanned.2 with
                    | Completed extensions => extensions
                    | Failed _ => []
                    end in
  let s := registerPlugins extensions s in
  let s := registrationDone (getMessages collector) s in
  handleEagerPlugins k init s.

(** ** The handshake: [connectToRenderer] and the join with the shared
    process *)

Definition connectToRenderer (s : State) : State :=
  emit (Send "ready") (set_listeners (listeners s ++ [InitListener]) (emit OnceMessage s)).

(** The [.done] continuation of the join of both connections. *)
Definition startIfJoined (k : Collaborators) (s : State) : State :=
  match renderer s, shared s, stage s with
  | Some init, true, Connecting => readPlugins k init (emit CreateServices s)
  | _, _, _ => s
  end.

(** The listener of [process.once('message', ...)]: it is removed, then
    called. *)
Definition initListener (k : Collaborators) (msg : Message) (s : State) : State :=
  let s := set_listeners (filter (λ l, isInitListener l = false) (listeners s)) s in
  let s := set_listeners (listeners s ++ [DispatchListener]) (emit OnMessage s) in
  let s := emit OnUnhandledRejection s in
  let s := set_handlers true (emit OnUncaughtException s) in
  let s := setInterval 5000 (ProbeParent (parentPid msg)) s in
  let s := setInterval 1000 CheckStats s in
  let s := emit (Send "initialized") s in
  startIfJoined k (set_renderer (Some msg) s).

Definition callListener (k : Collaborators) (msg : Message) (s : State) (l : Listener)
  : State :=
  match l with
  | InitListener => initListener k msg s
  | DispatchListener => emit (Handle msg) s
  end.

(** The 1000 ms interval. *)
Definition checkStats (s : State) : State :=
  let s := if bool_decide (250 ≤ length (stats s))
           then emit (ConsoleWarn ("SEND during 1sec: message_count="
                                   +:+ pretty (length (stats s)) +:+ ", total_len="
                                   +:+ pretty (foldl Nat.add 0 (stats s))))
                  (emit (ConsoleWarn
                           "MANY messages are being SEND FROM the extension host!") s)
           else s in
  set_stats [] s.

(** Module load: both connections are started. (A shared-process
    connection that fails is not modelled: nothing in the driver handles
    it.) *)
Definition boot : State :=
  emit ConnectSharedProcess
    (connectToRenderer
       {| alive := true; trace := []; listeners := []; handlers := false;
          intervals := []; timeouts := []; stats := []; renderer := None;
          shared := false; registry := []; inflight := []; runner := false;
          stage := Connecting |}).

(** One callback of the runtime. An emitted 'message' goes to the listeners
    registered when it is emitted; an exception nobody listens for ends the
    process, as node does by default; a dead process runs nothing. *)
Definition step (k : Collaborators) (s : State) (i : Input) : State :=
  if negb (alive s) then s else
  match i with
  | ParentMessage msg => foldl (callListener k msg) s (listeners s)
  | SharedProcessConnected =>
      if shared s then s else startIfJoined k (set_shared true s)
  | RemoteSend data =>
      match renderer s with
      | Some _ => set_stats (stats s ++ [String.length data]) (emit (Send data) s)
      | None => s
      end
  | UnhandledRejection reason =>
      if handlers s
      then emit (UnexpectedError reason)
             (emit (ConsoleError (VString "unhandled rejected promise")) s)
      else s
  | UncaughtException err =>
      if handlers s then emit (UnexpectedError err) s
      else set_alive false (emit (Crash err) s)
  | IntervalFired n killThrows =>
      match intervals s !! n with
      | Some (_, ProbeParent pid) =>
          let s := emit (Kill pid 0) s in
          if killThrows then exit s else s
      | Some (_, CheckStats) => checkStats s
      | None => s
      end
  | ScanSettled =>
      match stage s, renderer s with
      | Scanning, Some init => pluginsScanned k init s
      | _, _ => s
      end
  | FilesSettled =>
      match stage s, renderer s with
      | CheckingFiles folderPath fileNames, Some init =>
          filesChecked k init folderPath fileNames s
      | _, _ => s
      end
  | ActivationSettled n err =>
      match inflight s !! n with
      | Some _ =>
          let s := set_inflight (delete n (inflight s)) s in
          match err with
          | Some e => emit (ConsoleError e) s
          | None => s
          end
      | None => s
      end
  | RunnerCallback error => if runner s then runnerCallback error s else s
  | TimeoutFired n =>
      match timeouts s !! n with
      | Some _ => exit (set_timeouts (delete n (timeouts s)) s)
      | None => s
      end
  end.

Definition run (k : Collaborators) (s : State) (inputs : list Input) : State :=
  foldl (step k) s inputs.

(** * Vocabulary of the statements *)

(** ** Merging the scanned sources *)




Definition warning (m : JsValue) : IMessage :=
  {| type := Warning; source := ""; message := m |}.


(** ** Reading a trace *)

(** The activation requests issued, in order. *)
Definition activationRequests (t : list Event) : list string :=
  omap (λ e, match e with ActivateByEvent a => Some a | _ => None end) t.

(** The file names whose existence was checked, in order. *)
Definition fileChecks (t : list Event) : list string :=
  omap (λ e, match e with FileExistsWithResult _ f => Some f | _ => None end) t.

(** What was written with [console.error]. *)
Definition consoleErrors (t : list Event) : list JsValue :=
  omap (λ e, match e with ConsoleError v => Some v | _ => None end) t.

(** How often [x] occurs in [l]. *)
Definition occurrences `{EqDecision A} (x : A) (l : list A) : nat :=
  length (filter (λ y, y = x) l).

(** ** What each part of the driver adds to the trace *)

Definition requestEvents (k : Collaborators) (a : string) : list Event :=
  ActivateByEvent a ::
  match activateByEvent k a with
  | ActivationFailed err => [ConsoleError err]
  | _ => []
  end.

Definition testsConfigured (e : Env) : bool :=
  truthy (pluginTestsPath e) && truthy (pluginDevelopmentPath e).

Definition testEvents (k : Collaborators) (e : Env) : list Event :=
  if testsConfigured e then
    NodeRequire (str (pluginTestsPath e)) ::
    match nodeRequire k (str (pluginTestsPath e)) with
    | RequireLoaded ExportsRun => [RunTests (str (pluginTestsPath e))]
    | RequireLoaded _ =>
        [SetTimeout 0; ConsoleError (VString (pluginTestError (str (pluginTestsPath e))))]
    | RequireThrows error => [SetTimeout 0; ConsoleError (VString error)]
    end
  else [].

(** The file names, among those checked, for which a request goes out. *)
Definition presentFiles (k : Collaborators) (folderPath : string) (fileNames : list string)
  : list string :=
  filter (λ f, f ≠ "" ∧ pfs_fileExists k (paths_join k folderPath f) = true) fileNames.

Definition filesCheckedEvents (k : Collaborators) (init : Message) (folderPath : string)
    (fileNames : list string) : list Event :=
  FileChecksJoined ::
  (presentFiles k folderPath fileNames ≫= λ f, requestEvents k (workspaceContains +:+ f))
  ++ testEvents k (env init).

Definition checkEvents (k : Collaborators) (folderPath : string) (fileNames : list string)
  : list Event :=
  (λ f, FileExistsWithResult (paths_join k folderPath f) f) <$> fileNames.

Definition desiredFiles (descs : list IPluginDescription) : list string :=
  (map_to_list (desiredFilesMap descs)).*1.

Definition workspaceEvents (k : Collaborators) (init : Message)
    (descs : list IPluginDescription) : list Event :=
  match workspace init with
  | Some {| resource := Some folderPath |} =>
      checkEvents k folderPath (desiredFiles descs)
      ++ match desiredFiles descs with
         | [] => filesCheckedEvents k init folderPath []
         | _ => []
         end
  | _ => testEvents k (env init)
  end.

Definition eagerEvents (k : Collaborators) (init : Message)
    (descs : list IPluginDescription) : list Event :=
  requestEvents k "*" ++ workspaceEvents k init descs.

(** The scan a process with Init Data [init] performs. *)
Definition scanned (k : Collaborators) (init : Message)
  : PluginsMessageCollector * Settled (list IPluginDescription) :=
  scanPlugins k [] (BUILTIN_PLUGINS_PATH k) (userPluginsHome (env init))
    (pluginDevelopmentPath (env init)) (version (env init)).

(** The descriptors it registers and the messages it signals. *)
Definition registered (k : Collaborators) (init : Message) : list IPluginDescription :=
  match (scanned k init).2 with
  | Completed extensions => extensions
  | Failed _ => []
  end.

Definition signalled (k : Collaborators) (init : Message) : list IMessage :=
  match (scanned k init).2 with
  | Completed _ => (scanned k init).1
  | Failed err => collector_error (scanned k init).1 "" err
  end.

Definition scannedEvents (k : Collaborators) (init : Message) : list Event :=
  ScansJoined :: RegisterPlugins (registered k init)
  :: RegistrationDone (signalled k init)
  :: eagerEvents k init (registered k init).

Definition readEvents (k : Collaborators) (init : Message) : list Event :=
  CreateServices :: ScanPlugins (version (env init)) (BUILTIN_PLUGINS_PATH k) true ::
  (if truthy (userPluginsHome (env init))
   then [ScanPlugins (version (env init)) (str (userPluginsHome (env init))) false]
   else [])
  ++ (if truthy (pluginDevelopmentPath (env init))
      then [ScanOneOrMultiplePlugins (version (env init))
              (str (pluginDevelopmentPath (env init))) false]
      else []).

(** The driver's own parts leave the process itself alone: whether it is
    alive, its listeners and handlers, its intervals, the send statistics
    and both connections. *)
Definition sameProcess (s s' : State) : Prop :=
  alive s' = alive s ∧ listeners s' = listeners s ∧ handlers s' = handlers s
  ∧ intervals s' = intervals s ∧ stats s' = stats s
  ∧ renderer s' = renderer s ∧ shared s' = shared s.

(** Where the test stage leaves [start()]. *)
Definition testStage (k : Collaborators) (e : Env) : Stage :=
  if testsConfigured e then
    match nodeRequire k (str (pluginTestsPath e)) with
    | RequireLoaded ExportsRun => RunningTests
    | RequireLoaded _ => Done (Failed (VString (pluginTestError (str (pluginTestsPath e)))))
    | RequireThrows error => Done (Failed (VString error))
    end
  else Done (Completed ()).

(** Where eager activation leaves it: waiting for the existence checks if
    there are any. *)
Definition eagerStage (k : Collaborators) (init : Message)
    (descs : list IPluginDescription) : Stage :=
  match workspace init with
  | Some {| resource := Some folderPath |} =>
      match desiredFiles descs with
      | [] => testStage k (env init)
      | fileNames => CheckingFiles folderPath fileNames
      end
  | _ => testStage k (env init)
  end.




(** ** The handshake *)

(** The process is wired as [connectToRenderer] leaves it: before Init Data
    arrives only the one-shot listener waits; afterwards every 'message'
    goes to dispatch, the rejection and exception listeners are installed
    and the two intervals run. *)
Definition wired (s : State) : Prop :=
  match renderer s with
  | None =>
      listeners s = [InitListener] ∧ handlers s = false ∧ intervals s = []
  | Some init =>
      listeners s = [DispatchListener] ∧ handlers s = true
      ∧ intervals s = [(5000, ProbeParent (parentPid init)); (1000, CheckStats)]
  end.

Definition sameWiring (s s' : State) : Prop :=
  listeners s' = listeners s ∧ handlers s' = handlers s
  ∧ intervals s' = intervals s ∧ renderer s' = renderer s.

(** What the one-shot listener adds to the trace before [start()]. *)
Definition initEvents (msg : Message) : list Event :=
  [OnMessage; OnUnhandledRejection; OnUncaughtException;
   SetInterval 5000 (ProbeParent (parentPid msg)); SetInterval 1000 CheckStats;
   Send "initialized"].

(** ** Termination *)

(** The callbacks that end the process: the liveness probe finding the
    parent gone, and a timer of [process.exit()] set by the test stage. *)
Definition terminating (s : State) (i : Input) : bool :=
  match i with
  | IntervalFired n true =>
      match intervals s !! n with
      | Some (_, ProbeParent _) => true
      | _ => false
      end
  | TimeoutFired n => bool_decide (is_Some (timeouts s !! n))
  | _ => false
  end.

(** ** The order of the stages *)

(** The place of an effect in the lifecycle: starting the scans (0), the
    join of the scans (1), registration (2), its done-signal (3), the
    wildcard activation request (4), the existence checks (5), their join
    (6), the [workspaceContains] activation requests (7), loading and
    calling the test runner (8). Other effects have no place of their own. *)
Definition phase (e : Event) : option nat :=
  match e with
  | ScanPlugins _ _ _ | ScanOneOrMultiplePlugins _ _ _ => Some 0
  | ScansJoined => Some 1
  | RegisterPlugins _ => Some 2
  | RegistrationDone _ => Some 3
  | ActivateByEvent a => Some (if decide (a = "*") then 4 else 7)
  | FileExistsWithResult _ _ => Some 5
  | FileChecksJoined => Some 6
  | NodeRequire _ | RunTests _ => Some 8
  | _ => None
  end.

Definition phases (t : list Event) : list nat := omap phase t.

(** How far a stage can have got. *)
Definition stageBound (st : Stage) : nat :=
  match st with
  | Connecting | Scanning => 0
  | CheckingFiles _ _ => 5
  | RunningTests | Done _ => 8
  end.


(** A sorted list of phases between two bounds. *)
Definition band (lo hi : nat) (l : list nat) : Prop :=
  StronglySorted le l ∧ Forall (λ p, lo ≤ p ≤ hi) l.

(** As long as Init Data has not arrived, the driver has not started and a
    live process has done nothing beyond [boot]. *)
Definition pristine (s : State) : Prop :=
  renderer s = None →
  stage s = Connecting ∧ inflight s = [] ∧ runner s = false ∧ timeouts s = []
  ∧ (alive s = true → trace s = trace boot).

(** * A sample host *)

(** A builtin plugin "a" and a user-installed plugin with the same id; both
    wait for [package.json], the user one also for [x]. *)
Definition builtinA : IPluginDescription :=
  {| id := "a"; extensionFolderPath := "/builtin/a";
     activationEvents := Some ["workspaceContains:package.json"; "*"];
     manifest := [] |}.

Definition userA : IPluginDescription :=
  {| id := "a"; extensionFolderPath := "/u/a";
     activationEvents := Some ["workspaceContains:package.json"; "workspaceContains:x"];
     manifest := [("extra", "1")] |}.

(** Both scans succeed, [package.json] is the only file at the root, the
    wildcard activation stays in flight, every other activation fails at
    once, and the test runner exports [run]. *)
Definition sampleHost : Collaborators :=
  {| BUILTIN_PLUGINS_PATH := "/builtin";
     PluginScanner_scanPlugins := λ _ _ isBuiltin,
       {| scanMessages := [];
          scanResult := ScanCompleted (if isBuiltin then [builtinA] else [userA]) |};
     PluginScanner_scanOneOrMultiplePlugins := λ _ _ _,
       {| scanMessages := []; scanResult := ScanCompleted [] |};
     paths_join := λ a b, a +:+ "/" +:+ b;
     pfs_fileExists := λ p, String.eqb p "/ws/package.json";
     activateByEvent := λ a,
       if String.eqb a "*" then ActivationInFlight
       else ActivationFailed (VString "activation failed");
     nodeRequire := λ _, RequireLoaded ExportsRun |}.

(** The same host with a builtin scan that fails. *)
Definition failingScanHost : Collaborators :=
  {| BUILTIN_PLUGINS_PATH := "/builtin";
     PluginScanner_scanPlugins := λ _ _ isBuiltin,
       {| scanMessages := [];
          scanResult := if isBuiltin then ScanFailed "EACCES" else ScanCompleted [userA] |};
     PluginScanner_scanOneOrMultiplePlugins :=
       PluginScanner_scanOneOrMultiplePlugins sampleHost;
     paths_join := paths_join sampleHost;
     pfs_fileExists := pfs_fileExists sampleHost;
     activateByEvent := activateByEvent sampleHost;
     nodeRequire := nodeRequire sampleHost |}.

(** The same host with a test-runner module that has no [run]. *)
Definition brokenRunnerHost : Collaborators :=
  {| BUILTIN_PLUGINS_PATH := "/builtin";
     PluginScanner_scanPlugins := PluginScanner_scanPlugins sampleHost;
     PluginScanner_scanOneOrMultiplePlugins :=
       PluginScanner_scanOneOrMultiplePlugins sampleHost;
     paths_join := paths_join sampleHost;
     pfs_fileExists := pfs_fileExists sampleHost;
     activateByEvent := activateByEvent sampleHost;
     nodeRequire := λ _, RequireLoaded ExportsWithoutRun |}.

Definition sampleEnv : Env :=
  {| userPluginsHome := Some "/u"; pluginDevelopmentPath := Some "/d";
     pluginTestsPath := Some "/t"; version := "1" |}.

Definition sampleInit : Message :=
  {| parentPid := 7; workspace := Some {| resource := Some "/ws" |};
     env := sampleEnv; body := "" |}.

Definition noWorkspaceInit : Message :=
  {| parentPid := 7; workspace := None; env := sampleEnv; body := "" |}.

(** Both connections made, the scans started. *)
Definition connected (k : Collaborators) (init : Message) : State :=
  run k boot [ParentMessage init; SharedProcessConnected].

(** * Vocabulary of the further statements *)

(** The exit timers the test stage sets when it ends in a given stage: one
    with no delay when the runner could not be used. *)
Definition exitTimers (st : Stage) : list nat :=
  match st with
  | Done (Failed _) => [0]
  | _ => []
  end.

Definition running (st : Stage) : bool :=
  match st with RunningTests => true | _ => false end.

Definition settled (st : Stage) : bool :=
  match st with Done _ => true | _ => false end.

(** What the 1000 ms tick writes for the lengths of the messages sent
    since the tick before. *)
Definition statsWarnings (sent : list nat) : list Event :=
  if bool_decide (250 ≤ length sent)
  then [ConsoleWarn "MANY messages are being SEND FROM the extension host!";
        ConsoleWarn ("SEND during 1sec: message_count=" +:+ pretty (length sent)
                     +:+ ", total_len=" +:+ pretty (foldl Nat.add 0 sent))]
  else [].

(** The timers of [process.exit()] are set only once [start()] has
    settled, and the test runner has been called only if the test stage
    was reached. *)
Definition timersFollowStage (s : State) : Prop :=
  (settled (stage s) = false → timeouts s = [])
  ∧ (runner s = true → running (stage s) = true ∨ settled (stage s) = true).

(** [start()] has been called exactly when both connections are made. *)
Definition startedWhenJoined (s : State) : Prop :=
  stage s = Connecting ↔ renderer s = None ∨ shared s = false.

(** No test run is asked for by the Init Data that arrived, and none has
    been started. *)
Definition noTests (s : State) : Prop :=
  timeouts s = [] ∧ runner s = false ∧ stage s ≠ RunningTests
  ∧ (∀ r, stage s = Done r → r = Completed ())
  ∧ (∀ init, renderer s = Some init → testsConfigured (env init) = false).

(** Each of the four effects that happen once: the join of the scans,
    registration, its done-signal and the wildcard activation request. *)
Definition onceOnly (s : State) : Prop :=
  ∀ p, p ∈ [1; 2; 3; 4] →
       occurrences p (phases (trace s)) = if decide (stageBound (stage s) = 0) then 0 else 1.

(** * More of the sample host *)


(** Init Data that asks for no test run. *)
Definition noTestsInit : Message :=
  {| parentPid := 7; workspace := Some {| resource := Some "/ws" |};
     env := {| userPluginsHome := Some "/u"; pluginDevelopmentPath := Some "/d";
               pluginTestsPath := None; version := "1" |};
     body := "" |}.

(** The callbacks that take the sample host to the call of the test
    runner. *)
Definition toTheRunner : list Input :=
  [ParentMessage sampleInit; SharedProcessConnected; ScanSettled; FilesSettled].

(** * Verification *)

(** ** Merging the scanned sources *)

Section Merge.
Implicit Types (m : gmap string IPluginDescription) (l : list IPluginDescription).
Implicit Types (c : PluginsMessageCollector) (p : IPluginDescription).



















End Merge.



(** ** What the parts of the driver add to the trace *)

Lemma trace_emits (E : string → Event) l s :
  trace (foldl (λ s f, emit (E f) s) s l) = trace s ++ (E <$> l).
Proof.
  revert s. induction l as [|f l IH]; intros s; simpl.
  - by rewrite app_nil_r.
  - rewrite IH. simpl. by rewrite <- app_assoc.
Qed.

Lemma trace_requestActivation k a s :
  trace (requestActivation k a s) = trace s ++ requestEvents k a.
Proof.
  unfold requestActivation, requestEvents.
  destruct (activateByEvent k a); simpl; by rewrite <- ?app_assoc.
Qed.

Lemma handlePluginTests_skip k e s :
  testsConfigured e = false → handlePluginTests k e s = settle (Completed ()) s.
Proof.
  unfold handlePluginTests, testsConfigured.
  by destruct (truthy (pluginTestsPath e)), (truthy (pluginDevelopmentPath e)).
Qed.

Lemma handlePluginTests_run k e s :
  testsConfigured e = true →
  handlePluginTests k e s =
  let path := str (pluginTestsPath e) in
  let s := emit (NodeRequire path) s in
  match nodeRequire k path with
  | RequireLoaded ExportsRun =>
      set_stage RunningTests (set_runner true (emit (RunTests path) s))
  | RequireLoaded _ =>
      settle (Failed (VString (pluginTestError path))) (setTimeout_exit 0 s)
  | RequireThrows error =>
      settle (Failed (VString error)) (setTimeout_exit 0 s)
  end.
Proof.
  unfold handlePluginTests, testsConfigured.
  by destruct (truthy (pluginTestsPath e)), (truthy (pluginDevelopmentPath e)).
Qed.

Lemma trace_handlePluginTests k e s :
  trace (handlePluginTests k e s) = trace s ++ testEvents k e.
Proof.
  unfold testEvents. destruct (testsConfigured e) eqn:E.
  - rewrite handlePluginTests_run by done. simpl.
    destruct (nodeRequire k _) as [err|[]]; simpl; by rewrite <- ?app_assoc.
  - rewrite handlePluginTests_skip by done. simpl. by rewrite app_nil_r.
Qed.

Lemma trace_wsRequests k (results : list (option string)) s :
  trace (foldl (λ s existingFileName,
                  if truthy existingFileName
                  then requestActivation k (workspaceContains +:+ str existingFileName) s
                  else s) s results)
  = trace s ++ (results ≫= λ r, if truthy r
                               then requestEvents k (workspaceContains +:+ str r)
                               else []).
Proof.
  revert s. induction results as [|r rs IH]; intros s; simpl.
  - by rewrite app_nil_r.
  - rewrite IH. destruct (truthy r).
    + by rewrite trace_requestActivation, <- app_assoc.
    + done.
Qed.

Lemma truthy_Some f : truthy (Some f) = bool_decide (f ≠ "").
Proof.
  unfold truthy. destruct (String.eqb_spec f ""); by repeat case_bool_decide.
Qed.

Lemma results_present k folderPath (g : string → list Event) fileNames :
  ((λ f, fileExistsWithResult k (paths_join k folderPath f) f) <$> fileNames)
    ≫= (λ r, if truthy r then g (str r) else [])
  = presentFiles k folderPath fileNames ≫= g.
Proof.
  unfold presentFiles, fileExistsWithResult.
  induction fileNames as [|f fs IH]; [done|].
  rewrite fmap_cons, bind_cons, IH, filter_cons.
  destruct (pfs_fileExists k _) eqn:E.
  - rewrite truthy_Some. case_bool_decide; case_decide; try tauto; done.
  - simpl. case_decide as H; [|done]. by destruct H.
Qed.

Lemma trace_filesChecked k init folderPath fileNames s :
  trace (filesChecked k init folderPath fileNames s)
  = trace s ++ filesCheckedEvents k init folderPath fileNames.
Proof.
  unfold filesChecked, filesCheckedEvents.
  rewrite trace_handlePluginTests, trace_wsRequests. simpl.
  rewrite (results_present k folderPath (λ f, requestEvents k (workspaceContains +:+ f))).
  by rewrite <- !app_assoc.
Qed.

Lemma registry_emits (E : string → Event) l s :
  registry (foldl (λ s f, emit (E f) s) s l) = registry s.
Proof. revert s. induction l as [|f l IH]; intros s; simpl; [done|]. by rewrite IH. Qed.

Lemma registry_requestActivation k a s :
  registry (requestActivation k a s) = registry s.
Proof. unfold requestActivation. by destruct (activateByEvent k a). Qed.

Lemma trace_handleWorkspaceContainsEagerPlugins k init s :
  trace (handleWorkspaceContainsEagerPlugins k init s)
  = trace s ++ workspaceEvents k init (registry s).
Proof.
  unfold handleWorkspaceContainsEagerPlugins, workspaceEvents, desiredFiles,
    getAllPluginDescriptions.
  destruct (workspace init) as [[[folderPath|]]|];
    [|apply trace_handlePluginTests..].
  destruct ((map_to_list (desiredFilesMap (registry s))).*1) as [|f fs] eqn:E.
  - rewrite trace_filesChecked. unfold checkEvents. simpl. done.
  - simpl trace. rewrite (trace_emits (λ f, FileExistsWithResult (paths_join k folderPath f) f)).
    unfold checkEvents. rewrite app_nil_r, fmap_cons. simpl. by rewrite <- app_assoc.
Qed.

Lemma trace_handleEagerPlugins k init s :
  trace (handleEagerPlugins k init s) = trace s ++ eagerEvents k init (registry s).
Proof.
  unfold handleEagerPlugins, eagerEvents.
  rewrite trace_handleWorkspaceContainsEagerPlugins, trace_requestActivation.
  by rewrite registry_requestActivation, <- app_assoc.
Qed.

Lemma trace_pluginsScanned k init s :
  trace (pluginsScanned k init s) = trace s ++ scannedEvents k init.
Proof.
  unfold pluginsScanned, scannedEvents, registerPlugins, registrationDone.
  rewrite trace_handleEagerPlugins. simpl.
  fold (scanned k init). fold (registered k init). fold (signalled k init).
  by rewrite <- !app_assoc.
Qed.

Lemma trace_readPlugins k init s :
  trace (readPlugins k init (emit CreateServices s)) = trace s ++ readEvents k init.
Proof.
  unfold readPlugins, readEvents. simpl.
  destruct (truthy (userPluginsHome _)), (truthy (pluginDevelopmentPath _)); simpl;
    by rewrite <- ?app_assoc.
Qed.

(** ** What the parts of the driver leave alone *)

Global Instance sameProcess_preorder : PreOrder sameProcess.
Proof.
  split.
  - by intros s.
  - intros s1 s2 s3 (?&?&?&?&?&?&?) (?&?&?&?&?&?&?).
    repeat split; congruence.
Qed.

Lemma sameProcess_foldl {A} (f : State → A → State) l s :
  (∀ s x, sameProcess s (f s x)) → sameProcess s (foldl f s l).
Proof.
  intros Hf. revert s. induction l as [|x l IH]; intros s; simpl; [done|].
  etrans; [apply Hf|apply IH].
Qed.

Lemma sameProcess_emit e s : sameProcess s (emit e s).
Proof. done. Qed.

Lemma sameProcess_settle r s : sameProcess s (settle r s).
Proof. by destruct r. Qed.

Lemma sameProcess_requestActivation k a s : sameProcess s (requestActivation k a s).
Proof. unfold requestActivation. by destruct (activateByEvent k a). Qed.

Lemma sameProcess_handlePluginTests k e s : sameProcess s (handlePluginTests k e s).
Proof.
  unfold handlePluginTests.
  destruct (_ || _); [done|]. by destruct (nodeRequire k _) as [|[]].
Qed.

Lemma sameProcess_filesChecked k init folderPath fileNames s :
  sameProcess s (filesChecked k init folderPath fileNames s).
Proof.
  unfold filesChecked. etrans; [|apply sameProcess_handlePluginTests].
  etrans; [apply (sameProcess_emit FileChecksJoined)|].
  apply sameProcess_foldl. intros s' r. destruct (truthy r); [|done].
  apply sameProcess_requestActivation.
Qed.

Lemma sameProcess_handleEagerPlugins k init s :
  sameProcess s (handleEagerPlugins k init s).
Proof.
  unfold handleEagerPlugins, handleWorkspaceContainsEagerPlugins,
    getAllPluginDescriptions.
  etrans; [apply (sameProcess_requestActivation k "*")|].
  destruct (workspace init) as [[[folderPath|]]|];
    [|apply sameProcess_handlePluginTests..].
  set (s' := foldl _ _ _).
  assert (sameProcess (requestActivation k "*" s) s') as Hs'
    by (apply sameProcess_foldl; intros; apply sameProcess_emit).
  etrans; [exact Hs'|].
  destruct (map_to_list _).*1; [apply sameProcess_filesChecked|done].
Qed.

Lemma sameProcess_pluginsScanned k init s : sameProcess s (pluginsScanned k init s).
Proof.
  unfold pluginsScanned. etrans; [|apply sameProcess_handleEagerPlugins]. done.
Qed.

Lemma sameProcess_readPlugins k init s : sameProcess s (readPlugins k init s).
Proof.
  unfold readPlugins.
  by destruct (truthy (userPluginsHome _)), (truthy (pluginDevelopmentPath _)).
Qed.

Lemma sameProcess_runnerCallback error s : sameProcess s (runnerCallback error s).
Proof.
  unfold runnerCallback. destruct (stage s); try done. by destruct error.
Qed.

(** ** Where the parts of the driver leave the stage *)

Lemma stage_handlePluginTests k e s : stage (handlePluginTests k e s) = testStage k e.
Proof.
  unfold testStage. destruct (testsConfigured e) eqn:E.
  - rewrite handlePluginTests_run by done. simpl.
    by destruct (nodeRequire k _) as [|[]].
  - by rewrite handlePluginTests_skip.
Qed.

Lemma stage_filesChecked k init folderPath fileNames s :
  stage (filesChecked k init folderPath fileNames s) = testStage k (env init).
Proof. apply stage_handlePluginTests. Qed.

Lemma stage_handleEagerPlugins k init s :
  stage (handleEagerPlugins k init s) = eagerStage k init (registry s).
Proof.
  unfold handleEagerPlugins, handleWorkspaceContainsEagerPlugins, eagerStage, desiredFiles,
    getAllPluginDescriptions.
  rewrite registry_requestActivation.
  destruct (workspace init) as [[[folderPath|]]|];
    [|apply stage_handlePluginTests..].
  destruct (map_to_list _).*1; [apply stage_filesChecked|done].
Qed.

Lemma stage_pluginsScanned k init s :
  stage (pluginsScanned k init s) = eagerStage k init (registered k init).
Proof.
  unfold pluginsScanned, registerPlugins, registrationDone.
  by rewrite stage_handleEagerPlugins.
Qed.

Lemma registry_handlePluginTests k e s : registry (handlePluginTests k e s) = registry s.
Proof.
  unfold handlePluginTests.
  destruct (_ || _); [done|]. by destruct (nodeRequire k _) as [|[]].
Qed.

Lemma registry_foldl {A} (f : State → A → State) l s :
  (∀ s x, registry (f s x) = registry s) → registry (foldl f s l) = registry s.
Proof.
  intros Hf. revert s. induction l as [|x l IH]; intros s; simpl; [done|].
  by rewrite IH, Hf.
Qed.

Lemma registry_filesChecked k init folderPath fileNames s :
  registry (filesChecked k init folderPath fileNames s) = registry s.
Proof.
  unfold filesChecked. rewrite registry_handlePluginTests, registry_foldl; [done|].
  intros s' r. destruct (truthy r); [apply registry_requestActivation|done].
Qed.

Lemma registry_handleEagerPlugins k init s :
  registry (handleEagerPlugins k init s) = registry s.
Proof.
  unfold handleEagerPlugins, handleWorkspaceContainsEagerPlugins,
    getAllPluginDescriptions.
  destruct (workspace init) as [[[folderPath|]]|];
    [|by rewrite registry_handlePluginTests, registry_requestActivation..].
  destruct (map_to_list _).*1.
  - rewrite registry_filesChecked. simpl. by rewrite registry_requestActivation.
  - simpl registry.
    rewrite (registry_emits (λ f, FileExistsWithResult (paths_join k folderPath f) f)).
    simpl. by rewrite registry_requestActivation.
Qed.

Lemma registry_pluginsScanned k init s :
  registry (pluginsScanned k init s) = registered k init.
Proof.
  unfold pluginsScanned, registerPlugins, registrationDone.
  by rewrite registry_handleEagerPlugins.
Qed.

(** ** The run from the join of the scans to the test stage *)

Lemma step_ScanSettled k s init :
  alive s = true → stage s = Scanning → renderer s = Some init →
  step k s ScanSettled = pluginsScanned k init s.
Proof. intros Ha Hs Hr. unfold step. by rewrite Ha, Hs, Hr. Qed.

Lemma step_FilesSettled k s init folderPath fileNames :
  alive s = true → stage s = CheckingFiles folderPath fileNames → renderer s = Some init →
  step k s FilesSettled = filesChecked k init folderPath fileNames s.
Proof. intros Ha Hs Hr. unfold step. by rewrite Ha, Hs, Hr. Qed.




(** ** The desired files *)



Lemma prefix_substr p e :
  String.prefix p e = true → e = p +:+ substr (String.length p) e.
Proof.
  revert e. induction p as [|a p IH]; intros e; simpl.
  { by destruct e. }
  destruct e as [|b e]; simpl; [done|].
  destruct (Ascii.ascii_dec a b) as [->|]; [|done].
  intros H. rewrite (IH e H) at 1. reflexivity.
Qed.






(** ** Reading the driver's events *)

Lemma occurrences_absent `{EqDecision A} (x : A) l :
  x ∉ l → occurrences x l = 0.
Proof.
  unfold occurrences. induction l as [|y l IH]; intros Hx; [done|].
  apply not_elem_of_cons in Hx as [Hy Hx].
  rewrite filter_cons, decide_False by done. by apply IH.
Qed.


Lemma activationRequests_app t1 t2 :
  activationRequests (t1 ++ t2) = activationRequests t1 ++ activationRequests t2.
Proof. apply omap_app. Qed.

Lemma fileChecks_app t1 t2 : fileChecks (t1 ++ t2) = fileChecks t1 ++ fileChecks t2.
Proof. apply omap_app. Qed.

Lemma activationRequests_requestEvents k a : activationRequests (requestEvents k a) = [a].
Proof. unfold requestEvents. by destruct (activateByEvent k a). Qed.

Lemma fileChecks_requestEvents k a : fileChecks (requestEvents k a) = [].
Proof. unfold requestEvents. by destruct (activateByEvent k a). Qed.

Lemma activationRequests_testEvents k e : activationRequests (testEvents k e) = [].
Proof.
  unfold testEvents. destruct (testsConfigured e); [|done].
  by destruct (nodeRequire k _) as [|[]].
Qed.

Lemma fileChecks_testEvents k e : fileChecks (testEvents k e) = [].
Proof.
  unfold testEvents. destruct (testsConfigured e); [|done].
  by destruct (nodeRequire k _) as [|[]].
Qed.












(** ** A failed scan *)

Lemma scanPlugins_failed_builtin k c bp up dp v error :
  scanResult (PluginScanner_scanPlugins k v bp true) = ScanFailed error →
  ∃ reasons, (scanPlugins k c bp up dp v).2 = Failed (VErrors (Some error :: reasons)).
Proof.
  unfold scanPlugins, scannedSources. intros ->. simpl. eauto.
Qed.

(** C6. When the scan fails as a whole with [err], the continuation of the
    join records [err] as an error diagnostic next to what the scanners
    collected, registers the empty descriptor set, signals registration
    done with the collected messages, issues the wildcard activation
    request and goes on to the test stage; the process stays alive. *)
Theorem failed_scan_proceeds k s init err :
  alive s = true → stage s = Scanning → renderer s = Some init →
  (scanned k init).2 = Failed err →
  trace (step k s ScanSettled)
  = trace s
    ++ [ScansJoined; RegisterPlugins [];
        RegistrationDone ((scanned k init).1
                          ++ [{| type := Error; source := ""; message := err |}])]
    ++ requestEvents k "*"
    ++ match workspace init with
       | Some {| resource := Some _ |} => [FileChecksJoined]
       | _ => []
       end
    ++ testEvents k (env init)
  ∧ registry (step k s ScanSettled) = []
  ∧ stage (step k s ScanSettled) = testStage k (env init)
  ∧ alive (step k s ScanSettled) = true.
Proof.
  intros Ha Hs Hr Hf. rewrite (step_ScanSettled k s init) by done.
  rewrite trace_pluginsScanned, registry_pluginsScanned, stage_pluginsScanned.
  destruct (sameProcess_pluginsScanned k init s) as (->&_).
  assert (registered k init = []) as Hreg by (unfold registered; by rewrite Hf).
  assert (signalled k init
          = (scanned k init).1 ++ [{| type := Error; source := ""; message := err |}])
    as Hsig by (unfold signalled; by rewrite Hf).
  unfold scannedEvents, eagerEvents, workspaceEvents, eagerStage.
  rewrite Hreg, Hsig. unfold desiredFiles, desiredFilesMap, checkEvents. simpl.
  rewrite map_to_list_empty. simpl.
  repeat split; try done.
  - do 4 f_equal. by destruct (workspace init) as [[[folderPath|]]|].
  - by destruct (workspace init) as [[[folderPath|]]|].
Qed.

(** ** No workspace *)

(** C10. Without a workspace, or with a workspace that has no resource,
    the continuation of the join of the scans checks no file and issues no
    activation request but the wildcard one, which it does issue, and goes
    on to the test stage at once. *)
Theorem no_workspace_no_checks k s init :
  alive s = true → stage s = Scanning → renderer s = Some init →
  workspace init = None ∨ workspace init = Some {| resource := None |} →
  ∃ before,
    trace (step k s ScanSettled) = trace s ++ before ++ testEvents k (env init)
    ∧ fileChecks (before ++ testEvents k (env init)) = []
    ∧ activationRequests (before ++ testEvents k (env init)) = ["*"]
    ∧ stage (step k s ScanSettled) = testStage k (env init)
    ∧ alive (step k s ScanSettled) = true.
Proof.
  intros Ha Hs Hr Hw. rewrite (step_ScanSettled k s init) by done.
  rewrite trace_pluginsScanned, stage_pluginsScanned.
  destruct (sameProcess_pluginsScanned k init s) as (->&_).
  exists ([ScansJoined; RegisterPlugins (registered k init);
           RegistrationDone (signalled k init)] ++ requestEvents k "*").
  unfold scannedEvents, eagerEvents, workspaceEvents, eagerStage.
  rewrite !fileChecks_app, !activationRequests_app, fileChecks_requestEvents,
    fileChecks_testEvents, activationRequests_requestEvents,
    activationRequests_testEvents.
  destruct Hw as [-> | ->]; simpl; by rewrite <- ?app_assoc.
Qed.

(** ** The test stage *)

Lemma testsConfigured_true e :
  testsConfigured e = true ↔
  truthy (pluginTestsPath e) = true ∧ truthy (pluginDevelopmentPath e) = true.
Proof. unfold testsConfigured. apply andb_true_iff. Qed.

(** C3. The test stage does nothing at all (no effect, no timer, [start()]
    completes and the process stays as it is) unless both the tests path and
    the development path are present. With both present and a module that
    exports [run], the runner is called with the tests path and no exit is
    scheduled yet; every call of its callback, with an error or without,
    schedules the exit 800 ms later, and the process ends when that timer
    fires. *)
Theorem test_stage_runs k e s :
  alive s = true →
  (testsConfigured e = false →
     trace (handlePluginTests k e s) = trace s
     ∧ timeouts (handlePluginTests k e s) = timeouts s
     ∧ runner (handlePluginTests k e s) = runner s
     ∧ alive (handlePluginTests k e s) = true
     ∧ stage (handlePluginTests k e s) = Done (Completed ()))
  ∧ (runner (handlePluginTests k e s) = true → runner s = false →
       truthy (pluginTestsPath e) = true ∧ truthy (pluginDevelopmentPath e) = true)
  ∧ (testsConfigured e = true →
     nodeRequire k (str (pluginTestsPath e)) = RequireLoaded ExportsRun →
     trace (handlePluginTests k e s)
     = trace s ++ [NodeRequire (str (pluginTestsPath e));
                   RunTests (str (pluginTestsPath e))]
     ∧ timeouts (handlePluginTests k e s) = timeouts s
     ∧ runner (handlePluginTests k e s) = true
     ∧ ∀ error,
         let s' := step k (handlePluginTests k e s) (RunnerCallback error) in
         timeouts s' = timeouts s ++ [800]
         ∧ last (trace s') = Some (SetTimeout 800)
         ∧ alive s' = true
         ∧ alive (step k s' (TimeoutFired (length (timeouts s)))) = false).
Proof.
  intros Ha. split; [|split].
  - intros Hc. rewrite handlePluginTests_skip by done. simpl. by repeat split.
  - destruct (testsConfigured e) eqn:Hc.
    + intros _ _. by apply testsConfigured_true.
    + rewrite handlePluginTests_skip by done. simpl. congruence.
  - intros Hc Hreq. rewrite handlePluginTests_run by done. simpl. rewrite Hreq. simpl.
    rewrite <- app_assoc. repeat split; try done.
    all: unfold step; simpl; rewrite Ha; simpl;
      destruct error; simpl; rewrite ?last_snoc; try done.
    all: rewrite lookup_app_r, Nat.sub_diag by done; simpl.
    all: by rewrite Ha.
Qed.

(** C4. With a test run configured and a test-runner module that fails to
    load or does not export [run], the exit is scheduled with no delay, the
    failure is reported ([require]'s error, or the message that the path
    does not point to a valid extension test runner), and the process ends
    when that timer fires. *)
Theorem test_stage_fails k e s :
  alive s = true → testsConfigured e = true →
  nodeRequire k (str (pluginTestsPath e)) ≠ RequireLoaded ExportsRun →
  let report :=
    match nodeRequire k (str (pluginTestsPath e)) with
    | RequireThrows error => error
    | RequireLoaded _ =>
        "Path " +:+ str (pluginTestsPath e)
        +:+ " does not point to a valid extension test runner."
    end in
  let s' := handlePluginTests k e s in
  trace s' = trace s ++ [NodeRequire (str (pluginTestsPath e)); SetTimeout 0;
                         ConsoleError (VString report)]
  ∧ timeouts s' = timeouts s ++ [0]
  ∧ runner s' = runner s
  ∧ stage s' = Done (Failed (VString report))
  ∧ alive s' = true
  ∧ alive (step k s' (TimeoutFired (length (timeouts s)))) = false
  ∧ trace (step k s' (TimeoutFired (length (timeouts s)))) = trace s' ++ [Exit].
Proof.
  intros Ha Hc Hreq. simpl. rewrite handlePluginTests_run by done. simpl.
  destruct (nodeRequire k _) as [error|[]]; try done; simpl;
    rewrite <- !app_assoc; repeat split; try done.
  all: unfold step; simpl; rewrite Ha; simpl.
  all: rewrite lookup_app_r, Nat.sub_diag by done; simpl.
  all: by rewrite <- ?app_assoc.
Qed.

(** ** The handshake and what keeps it *)

Global Instance sameWiring_preorder : PreOrder sameWiring.
Proof.
  split.
  - by intros s.
  - intros s1 s2 s3 (?&?&?&?) (?&?&?&?). repeat split; congruence.
Qed.

Lemma sameProcess_sameWiring s s' : sameProcess s s' → sameWiring s s'.
Proof. intros (?&?&?&?&?&?&?). by repeat split. Qed.

Lemma wired_sameWiring s s' : sameWiring s s' → wired s → wired s'.
Proof. unfold wired. intros (->&->&->&->). done. Qed.

Lemma sameProcess_startIfJoined k s : sameProcess s (startIfJoined k s).
Proof.
  unfold startIfJoined. destruct (renderer s), (shared s), (stage s); try done.
  etrans; [apply (sameProcess_emit CreateServices)|apply sameProcess_readPlugins].
Qed.

Lemma wired_boot : wired boot.
Proof. done. Qed.

(** The first message: Init Data. *)
Lemma step_init k s msg :
  alive s = true → renderer s = None → wired s →
  ∃ s1, step k s (ParentMessage msg) = startIfJoined k s1
        ∧ trace s1 = trace s ++ initEvents msg
        ∧ renderer s1 = Some msg ∧ wired s1 ∧ alive s1 = true
        ∧ shared s1 = shared s ∧ stage s1 = stage s ∧ timeouts s1 = timeouts s
        ∧ inflight s1 = inflight s ∧ runner s1 = runner s.
Proof.
  intros Ha Hr Hw. unfold wired in Hw. rewrite Hr in Hw. destruct Hw as (Hl&Hh&Hi).
  unfold step. rewrite Ha, Hl. simpl. unfold initListener.
  eexists. split; [reflexivity|]. unfold wired. simpl. rewrite Hl, Hi. simpl.
  rewrite <- !app_assoc. by repeat split.
Qed.

(** Every later message: dispatch. *)
Lemma step_dispatch k s msg :
  alive s = true → renderer s ≠ None → wired s →
  step k s (ParentMessage msg) = emit (Handle msg) s.
Proof.
  intros Ha Hr Hw. unfold wired in Hw. destruct (renderer s); [|done].
  destruct Hw as (Hl&_). unfold step. by rewrite Ha, Hl.
Qed.

Lemma checkStats_sameWiring s : sameWiring s (checkStats s).
Proof. unfold checkStats. by case_bool_decide. Qed.

Lemma step_sameWiring k s i :
  wired s → (∀ msg, i = ParentMessage msg → renderer s ≠ None) →
  sameWiring s (step k s i).
Proof.
  intros Hw Hi. unfold step. destruct (alive s) eqn:Ha; [|done]. simpl.
  destruct i.
  - fold (step k s (ParentMessage msg)).
    assert (step k s (ParentMessage msg) = emit (Handle msg) s) as Hstep.
    { apply step_dispatch; eauto. }
    unfold step in Hstep. rewrite Ha in Hstep. simpl in Hstep. by rewrite Hstep.
  - destruct (shared s); [done|].
    etrans; [|apply sameProcess_sameWiring, sameProcess_startIfJoined]. done.
  - by destruct (renderer s).
  - by destruct (handlers s).
  - by destruct (handlers s).
  - destruct (intervals s !! n) as [[ms []]|]; try done.
    + by destruct killThrows.
    + apply checkStats_sameWiring.
  - destruct (stage s), (renderer s); try done.
    apply sameProcess_sameWiring, sameProcess_pluginsScanned.
  - destruct (stage s), (renderer s); try done.
    apply sameProcess_sameWiring, sameProcess_filesChecked.
  - destruct (inflight s !! n); [|done]. by destruct err.
  - destruct (runner s); [|done].
    apply sameProcess_sameWiring, sameProcess_runnerCallback.
  - by destruct (timeouts s !! n).
Qed.

Lemma wired_step k s i : wired s → wired (step k s i).
Proof.
  intros Hw. destruct (alive s) eqn:Ha; [|unfold step; by rewrite Ha].
  destruct (renderer s) as [init|] eqn:Hr.
  - eapply wired_sameWiring; [|exact Hw]. apply step_sameWiring; [done|].
    intros msg _. by rewrite Hr.
  - destruct i as [msg| | | | | | | | | |].
    { destruct (step_init k s msg Ha Hr Hw) as (s1&->&_&_&Hw1&_).
      eapply wired_sameWiring; [|exact Hw1].
      apply sameProcess_sameWiring, sameProcess_startIfJoined. }
    all: eapply wired_sameWiring; [|exact Hw]; by apply step_sameWiring.
Qed.

Lemma wired_run k s inputs : wired s → wired (run k s inputs).
Proof.
  revert s. induction inputs as [|i inputs IH]; intros s Hw; [done|].
  apply IH, wired_step, Hw.
Qed.

Lemma renderer_step k s i : renderer s ≠ None → wired s → renderer (step k s i) ≠ None.
Proof.
  intros Hr Hw. destruct (step_sameWiring k s i Hw) as (_&_&_&->); [|done].
  by intros.
Qed.

Lemma renderer_run k s inputs :
  renderer s ≠ None → wired s → renderer (run k s inputs) ≠ None.
Proof.
  revert s. induction inputs as [|i inputs IH]; intros s Hr Hw; [done|].
  apply IH; [by apply renderer_step|by apply wired_step].
Qed.

(** ** The order of the stages *)

Lemma phases_app t1 t2 : phases (t1 ++ t2) = phases t1 ++ phases t2.
Proof. apply omap_app. Qed.

Lemma band_nil lo hi : band lo hi [].
Proof. split; constructor. Qed.

Lemma band_singleton lo hi p : lo ≤ p ≤ hi → band lo hi [p].
Proof. intros H. split; repeat constructor; lia. Qed.

Lemma band_weaken lo hi lo' hi' l : band lo hi l → lo' ≤ lo → hi ≤ hi' → band lo' hi' l.
Proof.
  intros [Hs Hf] ??. split; [done|]. eapply Forall_impl; [exact Hf|].
  simpl. intros; lia.
Qed.

Lemma band_app a b c d l1 l2 :
  band a b l1 → band c d l2 → b ≤ c → band (a `min` c) (b `max` d) (l1 ++ l2).
Proof.
  intros [Hs1 Hf1] [Hs2 Hf2] Hbc. split.
  - apply StronglySorted_app_2; [|done..].
    intros x1 x2 H1 H2. rewrite Forall_forall in Hf1, Hf2.
    specialize (Hf1 _ H1). specialize (Hf2 _ H2). lia.
  - apply Forall_app. split; (eapply Forall_impl; [eassumption|]); simpl; intros; lia.
Qed.

Lemma band_const c l : Forall (λ p, p = c) l → band c c l.
Proof.
  induction 1 as [|p l -> Hl [IH1 IH2]]; [apply band_nil|]. split.
  - constructor; [done|]. eapply Forall_impl; [exact IH2|]. simpl. intros; lia.
  - constructor; [lia|done].
Qed.

Lemma phases_requestEvents k a :
  phases (requestEvents k a) = [if decide (a = "*") then 4 else 7].
Proof. unfold requestEvents. by destruct (activateByEvent k a). Qed.

Lemma phases_testEvents k e : Forall (λ p, p = 8) (phases (testEvents k e)).
Proof.
  unfold testEvents. destruct (testsConfigured e); [|constructor].
  destruct (nodeRequire k _) as [|[]]; repeat constructor.
Qed.

Lemma phases_checkEvents k folderPath fileNames :
  Forall (λ p, p = 5) (phases (checkEvents k folderPath fileNames)).
Proof. unfold checkEvents. induction fileNames; by constructor. Qed.

Lemma phases_wsRequests k l :
  Forall (λ p, p = 7)
    (phases (l ≫= λ f, requestEvents k (workspaceContains +:+ f))).
Proof.
  induction l as [|f l IH]; [constructor|].
  rewrite bind_cons, phases_app, phases_requestEvents. by constructor.
Qed.

Lemma band_testEvents k e : band 8 8 (phases (testEvents k e)).
Proof. apply band_const, phases_testEvents. Qed.

Lemma band_filesCheckedEvents k init folderPath fileNames :
  band 6 8 (phases (filesCheckedEvents k init folderPath fileNames)).
Proof.
  unfold filesCheckedEvents.
  change (FileChecksJoined :: ?l) with ([FileChecksJoined] ++ l).
  rewrite !phases_app.
  apply (band_app 6 6 7 8); [by apply band_singleton| |lia].
  apply (band_app 7 7 8 8); [apply band_const, phases_wsRequests| |lia].
  apply band_testEvents.
Qed.

Lemma band_workspaceEvents k init descs :
  band 5 (stageBound (eagerStage k init descs)) (phases (workspaceEvents k init descs)).
Proof.
  unfold workspaceEvents, eagerStage.
  assert (stageBound (testStage k (env init)) = 8) as Ht.
  { unfold testStage. destruct (testsConfigured _); [|done].
    by destruct (nodeRequire k _) as [|[]]. }
  destruct (workspace init) as [[[folderPath|]]|].
  2,3: rewrite Ht; eapply band_weaken; [apply band_testEvents|lia..].
  rewrite phases_app.
  pose proof (phases_checkEvents k folderPath (desiredFiles descs)) as Hc.
  destruct (desiredFiles descs) as [|f fs].
  - rewrite Ht. apply (band_app 5 5 6 8); [by apply band_const| |lia].
    apply band_filesCheckedEvents.
  - rewrite app_nil_r. by apply band_const.
Qed.

Lemma band_scannedEvents k init :
  band 1 (stageBound (eagerStage k init (registered k init)))
    (phases (scannedEvents k init)).
Proof.
  unfold scannedEvents, eagerEvents.
  change (ScansJoined :: ?a :: ?b :: ?l) with ([ScansJoined; a; b] ++ l).
  rewrite !phases_app, phases_requestEvents. simpl.
  pose proof (band_workspaceEvents k init (registered k init)) as Hw.
  set (hi := stageBound _) in *. set (l := phases (workspaceEvents _ _ _)) in *.
  assert (5 ≤ hi) as Hhi.
  { unfold hi, eagerStage. destruct (workspace init) as [[[folderPath|]]|].
    - destruct (desiredFiles _); [|simpl; lia].
      unfold testStage. destruct (testsConfigured _); [|simpl; lia].
      destruct (nodeRequire k _) as [|[]]; simpl; lia.
    - unfold testStage. destruct (testsConfigured _); [|simpl; lia].
      destruct (nodeRequire k _) as [|[]]; simpl; lia.
    - unfold testStage. destruct (testsConfigured _); [|simpl; lia].
      destruct (nodeRequire k _) as [|[]]; simpl; lia. }
  eapply band_weaken;
    [apply (band_app 1 4 5 hi [1; 2; 3; 4] l); [|exact Hw|lia]|lia..].
  split; repeat constructor; lia.
Qed.

Lemma phases_readEvents k init : Forall (λ p, p = 0) (phases (readEvents k init)).
Proof.
  unfold readEvents.
  destruct (truthy (userPluginsHome _)), (truthy (pluginDevelopmentPath _));
    repeat constructor.
Qed.

Lemma stageBound_testStage k e : stageBound (testStage k e) = 8.
Proof.
  unfold testStage. destruct (testsConfigured e); [|done].
  by destruct (nodeRequire k _) as [|[]].
Qed.

Lemma stage_readPlugins k init s : stage (readPlugins k init s) = Scanning.
Proof.
  unfold readPlugins.
  by destruct (truthy (userPluginsHome _)), (truthy (pluginDevelopmentPath _)).
Qed.

(** A step that adds no effect with a place in the lifecycle and leaves the
    stage alone. *)
Local Ltac quiet :=
  eexists; split;
  [rewrite <- ?app_assoc; try (symmetry; apply app_nil_r); reflexivity
  |split; [apply band_nil|done]].

Lemma startIfJoined_progress k s :
  ∃ new, trace (startIfJoined k s) = trace s ++ new
    ∧ band (stageBound (stage s)) (stageBound (stage (startIfJoined k s))) (phases new)
    ∧ stageBound (stage s) ≤ stageBound (stage (startIfJoined k s)).
Proof.
  unfold startIfJoined.
  destruct (renderer s) as [init|], (shared s), (stage s) eqn:Hs;
    try (exists []; rewrite app_nil_r, ?Hs; split; [done|split; [apply band_nil|done]]).
  exists (readEvents k init). rewrite trace_readPlugins, stage_readPlugins.
  split; [done|]. split; [|done]. apply (band_const 0), phases_readEvents.
Qed.

(** What one step adds lies between where the stage stood and where it
    stands. *)
Lemma step_progress k s i :
  wired s →
  ∃ new, trace (step k s i) = trace s ++ new
    ∧ band (stageBound (stage s)) (stageBound (stage (step k s i))) (phases new)
    ∧ stageBound (stage s) ≤ stageBound (stage (step k s i)).
Proof.
  intros Hw. destruct (alive s) eqn:Ha.
  2: { unfold step. rewrite Ha. simpl. quiet. }
  destruct i.
  - destruct (renderer s) as [init|] eqn:Hr.
    + rewrite step_dispatch by (by rewrite ?Hr). quiet.
    + destruct (step_init k s msg Ha Hr Hw) as (s1&->&Ht&_&_&_&_&Hst&_).
      destruct (startIfJoined_progress k s1) as (new&->&Hb&Hle).
      exists (initEvents msg ++ new). rewrite Ht, <- app_assoc, <- Hst.
      split; [done|]. rewrite phases_app. done.
  - unfold step. rewrite Ha. simpl. destruct (shared s); [quiet|].
    apply (startIfJoined_progress k (set_shared true s)).
  - unfold step. rewrite Ha. simpl. destruct (renderer s); quiet.
  - unfold step. rewrite Ha. simpl. destruct (handlers s); simpl; quiet.
  - unfold step. rewrite Ha. simpl. destruct (handlers s); simpl; quiet.
  - unfold step. rewrite Ha. simpl.
    destruct (intervals s !! n) as [[ms []]|]; [| |quiet].
    + destruct killThrows; simpl; quiet.
    + unfold checkStats. case_bool_decide; simpl; quiet.
  - destruct (stage s) eqn:Hs, (renderer s) as [init|] eqn:Hr;
      try (unfold step; rewrite Ha, Hs, ?Hr; simpl; rewrite ?Hs; quiet).
    rewrite (step_ScanSettled k s init) by done.
    exists (scannedEvents k init).
    rewrite trace_pluginsScanned, stage_pluginsScanned.
    split; [done|]. pose proof (band_scannedEvents k init) as [Hb1 Hb2].
    split; [|simpl; lia].
    eapply band_weaken; [split; [exact Hb1|exact Hb2]|simpl; lia|lia].
  - destruct (stage s) eqn:Hs, (renderer s) as [init|] eqn:Hr;
      try (unfold step; rewrite Ha, Hs, ?Hr; simpl; rewrite ?Hs; quiet).
    rewrite (step_FilesSettled k s init folderPath fileNames) by done.
    exists (filesCheckedEvents k init folderPath fileNames).
    rewrite trace_filesChecked, stage_filesChecked, stageBound_testStage.
    split; [done|]. split; [|simpl; lia].
    eapply band_weaken; [apply band_filesCheckedEvents|simpl; lia|lia].
  - unfold step. rewrite Ha. simpl.
    destruct (inflight s !! n); [|quiet]. destruct err; simpl; quiet.
  - unfold step. rewrite Ha. simpl. destruct (runner s); [|quiet].
    unfold runnerCallback. destruct (stage s) eqn:Hs; simpl; rewrite ?Hs; try quiet.
    destruct error; simpl; quiet.
  - unfold step. rewrite Ha. simpl. destruct (timeouts s !! n); simpl; quiet.
Qed.




(** ** Before Init Data *)

Lemma pristine_boot : pristine boot.
Proof. by intros _. Qed.

Lemma pristine_step k s i : wired s → pristine s → pristine (step k s i).
Proof.
  intros Hw Hp Hr'. destruct (renderer s) as [init|] eqn:Hr.
  { exfalso. eapply (renderer_step k s i); [by rewrite Hr|done..]. }
  destruct (Hp Hr) as (Hst&Hin&Hru&Hti&Htr). unfold wired in Hw. rewrite Hr in Hw.
  destruct Hw as (Hl&Hh&Hi).
  revert Hr'. unfold step. destruct (alive s) eqn:Ha; simpl.
  2: { intros _. repeat split; try done. by rewrite Ha. }
  destruct i; simpl; rewrite ?Hr, ?Hst, ?Hin, ?Hru, ?Hti, ?Hh, ?Hi, ?Hl; simpl;
    try (intros _; repeat split; auto; fail).
  - unfold initListener. intros Hr'. exfalso.
    destruct (sameProcess_startIfJoined k
      (set_renderer (Some msg)
         (emit (Send "initialized")
            (setInterval 1000 CheckStats
               (setInterval 5000 (ProbeParent (parentPid msg))
                  (set_handlers true
                     (emit OnUncaughtException
                        (emit OnUnhandledRejection
                           (set_listeners
                              (listeners
                                 (set_listeners
                                    (filter (λ l, isInitListener l = false) (listeners s)) s)
                               ++ [DispatchListener])
                              (emit OnMessage
                                 (set_listeners
                                    (filter (λ l, isInitListener l = false) (listeners s))
                                    s))))))))))) as (_&_&_&_&_&Hren&_).
    rewrite Hren in Hr'. discriminate Hr'.
  - destruct (shared s); [intros _; repeat split; auto|].
    unfold startIfJoined. simpl. rewrite Hr. simpl. intros _; repeat split; auto.
  - intros _; repeat split; auto. discriminate.
Qed.

Lemma pristine_run k s inputs : wired s → pristine s → pristine (run k s inputs).
Proof.
  revert s. induction inputs as [|i inputs IH]; intros s Hw Hp; [done|].
  apply IH; [by apply wired_step|by apply pristine_step].
Qed.

(** Membership in an explicit list of effects, by cases. *)
Local Ltac by_cases H :=
  repeat (apply elem_of_cons in H as [H|H]; [discriminate H|]);
  by apply elem_of_nil in H.

Lemma startIfJoined_no_dispatch k s m :
  Handle m ∉ trace s → Handle m ∉ trace (startIfJoined k s).
Proof.
  unfold startIfJoined. destruct (renderer s) as [init|], (shared s), (stage s); try done.
  rewrite trace_readPlugins. intros Hn [H|H]%elem_of_app; [done|].
  unfold readEvents in H.
  destruct (truthy (userPluginsHome _)), (truthy (pluginDevelopmentPath _));
    simpl in H; by_cases H.
Qed.

(** C5. In every run: as long as Init Data has not arrived, a live process
    has sent "ready" and done nothing since; the first message on the parent
    channel is consumed as Init Data, is not dispatched, and makes the
    process first register the dispatch listener (and the error listeners
    and intervals) and only then send "initialized"; once Init Data has
    arrived, a message on the parent channel does nothing but go to the
    remote registry's dispatch. *)
Theorem handshake_order k inputs msg :
  alive (run k boot inputs) = true →
  (renderer (run k boot inputs) = None →
     trace (run k boot inputs) = [OnceMessage; Send "ready"; ConnectSharedProcess]
     ∧ renderer (step k (run k boot inputs) (ParentMessage msg)) = Some msg
     ∧ ∃ after,
         trace (step k (run k boot inputs) (ParentMessage msg))
         = trace (run k boot inputs)
           ++ [OnMessage; OnUnhandledRejection; OnUncaughtException;
               SetInterval 5000 (ProbeParent (parentPid msg));
               SetInterval 1000 CheckStats; Send "initialized"]
           ++ after
         ∧ Handle msg ∉ after)
  ∧ (renderer (run k boot inputs) ≠ None →
     step k (run k boot inputs) (ParentMessage msg)
     = emit (Handle msg) (run k boot inputs)).
Proof.
  intros Ha. set (s := run k boot inputs) in *.
  assert (wired s) as Hw by apply wired_run, wired_boot.
  assert (pristine s) as Hp by (apply pristine_run; [apply wired_boot|apply pristine_boot]).
  split.
  - intros Hr. destruct (Hp Hr) as (_&_&_&_&Ht). specialize (Ht Ha).
    destruct (step_init k s msg Ha Hr Hw) as (s1&Hstep&Ht1&Hr1&_).
    rewrite Hstep. split; [done|]. split.
    { by destruct (sameProcess_startIfJoined k s1) as (_&_&_&_&_&->&_). }
    assert (Handle msg ∉ trace s1) as Hn.
    { rewrite Ht1, Ht. unfold initEvents. simpl. intros H. by_cases H. }
    apply (startIfJoined_no_dispatch k) in Hn.
    destruct (startIfJoined_progress k s1) as (new&Hnew&_).
    exists new. rewrite Hnew, Ht1, <- app_assoc. split; [done|].
    rewrite Hnew in Hn. intros H. apply Hn, elem_of_app. by right.
  - intros Hr. by apply step_dispatch.
Qed.

(** ** Termination *)

Lemma run_dead k s inputs : alive s = false → run k s inputs = s.
Proof.
  intros Ha. induction inputs as [|i inputs IH]; [done|].
  unfold run in *. simpl. unfold step at 2. by rewrite Ha.
Qed.

Lemma run_cons k s i inputs : run k s (i :: inputs) = run k (step k s i) inputs.
Proof. done. Qed.

Lemma run_app k s inputs1 inputs2 :
  run k s (inputs1 ++ inputs2) = run k (run k s inputs1) inputs2.
Proof. apply foldl_app. Qed.

(** After the handshake, a live process dies in a step exactly when the
    step is a terminating one. *)
Lemma step_alive k s i :
  wired s → renderer s ≠ None → alive s = true →
  alive (step k s i) = negb (terminating s i).
Proof.
  intros Hw Hr Ha. pose proof Hw as Hw'. unfold wired in Hw'.
  destruct (renderer s) as [init|] eqn:Hren; [|done]. destruct Hw' as (Hl&Hh&Hi).
  destruct i.
  - rewrite step_dispatch by (by rewrite ?Hren). done.
  - unfold step. rewrite Ha. simpl. destruct (shared s); [done|].
    by destruct (sameProcess_startIfJoined k (set_shared true s)) as (->&_).
  - unfold step. by rewrite Ha, Hren.
  - unfold step. by rewrite Ha, Hh.
  - unfold step. by rewrite Ha, Hh.
  - unfold step, terminating. rewrite Ha. simpl.
    destruct (intervals s !! n) as [[ms []]|]; [| |by destruct killThrows].
    + by destruct killThrows.
    + unfold checkStats. destruct killThrows; by case_bool_decide.
  - unfold step. rewrite Ha, Hren. simpl. destruct (stage s); try done.
    by destruct (sameProcess_pluginsScanned k init s) as (->&_).
  - unfold step. rewrite Ha, Hren. simpl. destruct (stage s); try done.
    by destruct (sameProcess_filesChecked k init folderPath fileNames s) as (->&_).
  - unfold step. rewrite Ha. simpl. destruct (inflight s !! n); [|done].
    by destruct err.
  - unfold step. rewrite Ha. simpl. destruct (runner s); [|done].
    by destruct (sameProcess_runnerCallback error s) as (->&_).
  - unfold step, terminating. rewrite Ha. simpl.
    destruct (timeouts s !! n) eqn:E.
    + by rewrite bool_decide_eq_true_2.
    + rewrite bool_decide_eq_false_2; [done|]. by intros [? ?].
Qed.

Lemma run_alive k s inputs :
  wired s → renderer s ≠ None → alive s = true →
  alive (run k s inputs) = false ↔
  ∃ pre i post, inputs = pre ++ i :: post
                ∧ alive (run k s pre) = true
                ∧ terminating (run k s pre) i = true.
Proof.
  revert s. induction inputs as [|i inputs IH]; intros s Hw Hr Ha.
  - split; [simpl; congruence|]. intros (pre&j&post&H&_). by destruct pre.
  - rewrite run_cons. pose proof (step_alive k s i Hw Hr Ha) as Hstep.
    destruct (terminating s i) eqn:Ht; simpl in Hstep.
    + rewrite run_dead by done. split; [|done]. intros _. by exists [], i, inputs.
    + rewrite IH by (first [by apply wired_step|by apply renderer_step|done]).
      split.
      * intros (pre&j&post&->&Hpre&Hj). by exists (i :: pre), j, post.
      * intros (pre&j&post&Heq&Hpre&Hj). destruct pre as [|i' pre].
        -- simpl in *. injection Heq as <- <-. congruence.
        -- injection Heq as <- ->. by exists pre, j, post.
Qed.

(** C9. In every run, once Init Data has arrived: the liveness probe is the
    5000 ms interval, it sends signal 0 to the parent's process id and exits
    at once if that throws; the process dies if and only if some callback
    was such a failed probe or a timer of [process.exit()] set by the test
    stage; an uncaught exception and an unhandled rejection are reported
    and leave the process alive. *)
Theorem termination_causes k before after :
  alive (run k boot before) = true → renderer (run k boot before) ≠ None →
  (∃ init,
     renderer (run k boot before) = Some init
     ∧ intervals (run k boot before)
       = [(5000, ProbeParent (parentPid init)); (1000, CheckStats)]
     ∧ ∀ killThrows,
         trace (step k (run k boot before) (IntervalFired 0 killThrows))
         = trace (run k boot before)
           ++ Kill (parentPid init) 0 :: (if killThrows then [Exit] else []))
  ∧ (alive (run k (run k boot before) after) = false ↔
     ∃ pre i post, after = pre ++ i :: post
                   ∧ alive (run k (run k boot before) pre) = true
                   ∧ terminating (run k (run k boot before) pre) i = true)
  ∧ (∀ err,
       alive (step k (run k boot before) (UncaughtException err)) = true
       ∧ trace (step k (run k boot before) (UncaughtException err))
         = trace (run k boot before) ++ [UnexpectedError err])
  ∧ (∀ reason,
       alive (step k (run k boot before) (UnhandledRejection reason)) = true
       ∧ trace (step k (run k boot before) (UnhandledRejection reason))
         = trace (run k boot before)
           ++ [ConsoleError (VString "unhandled rejected promise");
               UnexpectedError reason]).
Proof.
  intros Ha Hr. set (s := run k boot before) in *.
  assert (wired s) as Hw by apply wired_run, wired_boot.
  pose proof Hw as Hw'. unfold wired in Hw'.
  destruct (renderer s) as [init|] eqn:Hren; [|done]. destruct Hw' as (Hl&Hh&Hi).
  split; [|split; [|split]].
  - exists init. split; [done|]. split; [done|]. intros killThrows.
    unfold step. rewrite Ha, Hi. simpl. destruct killThrows; simpl; by rewrite <- ?app_assoc.
  - apply run_alive; [done|by rewrite Hren|done].
  - intros err. unfold step. by rewrite Ha, Hh.
  - intros reason. unfold step. rewrite Ha, Hh. simpl. by rewrite <- app_assoc.
Qed.

(** ** Failing activation requests *)




(** ** The order of the stages, in every run *)


(** * The statements at the sample host *)

(** The scenario of the merge: the user-installed "a" replaces the builtin
    one and one warning names both folders. *)
Example mergeScanned_scenario :
  mergeScanned [] [builtinA] [userA] []
  = ([warning (VString "Overwriting extension /builtin/a with /u/a")], [userA]).
Proof. vm_compute. reflexivity. Qed.



Lemma test_stage_runs_witness :
  alive boot = true
  ∧ trace (handlePluginTests sampleHost sampleEnv boot)
    = trace boot ++ [NodeRequire "/t"; RunTests "/t"]
  ∧ timeouts (step sampleHost (handlePluginTests sampleHost sampleEnv boot)
                (RunnerCallback None)) = [800].
Proof.
  split; [reflexivity|].
  destruct (test_stage_runs sampleHost sampleEnv boot eq_refl) as (_ & _ & H).
  destruct (H eq_refl eq_refl) as (Ht & _ & _ & Hcb).
  split; [exact Ht|]. exact (proj1 (Hcb None)).
Defined.

Lemma test_stage_fails_witness :
  alive boot = true
  ∧ nodeRequire brokenRunnerHost "/t" ≠ RequireLoaded ExportsRun
  ∧ trace (handlePluginTests brokenRunnerHost sampleEnv boot)
    = trace boot
      ++ [NodeRequire "/t"; SetTimeout 0;
          ConsoleError
            (VString "Path /t does not point to a valid extension test runner.")]
  ∧ alive (step brokenRunnerHost (handlePluginTests brokenRunnerHost sampleEnv boot)
             (TimeoutFired 0)) = false.
Proof.
  assert (nodeRequire brokenRunnerHost (str (pluginTestsPath sampleEnv))
          ≠ RequireLoaded ExportsRun) as Hn by discriminate.
  split; [reflexivity|]. split; [exact Hn|].
  destruct (test_stage_fails brokenRunnerHost sampleEnv boot eq_refl eq_refl Hn)
    as (Ht & _ & _ & _ & _ & Hdead & _).
  split; [exact Ht|exact Hdead].
Defined.

Lemma handshake_order_witness :
  alive (run sampleHost boot []) = true
  ∧ alive (run sampleHost boot [ParentMessage sampleInit]) = true
  ∧ trace (run sampleHost boot []) = [OnceMessage; Send "ready"; ConnectSharedProcess]
  ∧ renderer (step sampleHost (run sampleHost boot []) (ParentMessage sampleInit))
    = Some sampleInit
  ∧ step sampleHost (run sampleHost boot [ParentMessage sampleInit])
      (ParentMessage noWorkspaceInit)
    = emit (Handle noWorkspaceInit) (run sampleHost boot [ParentMessage sampleInit]).
Proof.
  split; [reflexivity|]. split; [reflexivity|].
  destruct (handshake_order sampleHost [] sampleInit eq_refl) as [H1 _].
  destruct (H1 eq_refl) as (Ht & Hr & _).
  destruct (handshake_order sampleHost [ParentMessage sampleInit] noWorkspaceInit eq_refl)
    as [_ H2].
  split; [exact Ht|]. split; [exact Hr|]. apply H2. discriminate.
Defined.

Lemma failed_scan_proceeds_witness :
  alive (connected failingScanHost sampleInit) = true
  ∧ (scanned failingScanHost sampleInit).2 = Failed (VErrors [Some "EACCES"; None; None])
  ∧ registry (step failingScanHost (connected failingScanHost sampleInit) ScanSettled) = []
  ∧ stage (step failingScanHost (connected failingScanHost sampleInit) ScanSettled)
    = RunningTests.
Proof.
  split; [reflexivity|]. split; [reflexivity|].
  destruct (failed_scan_proceeds failingScanHost (connected failingScanHost sampleInit)
              sampleInit (VErrors [Some "EACCES"; None; None])
              eq_refl eq_refl eq_refl eq_refl) as (_ & Hreg & Hst & _).
  split; [exact Hreg|exact Hst].
Defined.


Lemma termination_causes_witness :
  alive (run sampleHost boot [ParentMessage sampleInit]) = true
  ∧ renderer (run sampleHost boot [ParentMessage sampleInit]) ≠ None
  ∧ alive (step sampleHost (run sampleHost boot [ParentMessage sampleInit])
             (UncaughtException (VString "oops"))) = true
  ∧ alive (run sampleHost (run sampleHost boot [ParentMessage sampleInit])
             [UncaughtException (VString "oops"); IntervalFired 0 true]) = false.
Proof.
  assert (renderer (run sampleHost boot [ParentMessage sampleInit]) ≠ None) as Hr
    by discriminate.
  split; [reflexivity|]. split; [exact Hr|].
  destruct (termination_causes sampleHost [ParentMessage sampleInit]
              [UncaughtException (VString "oops"); IntervalFired 0 true] eq_refl Hr)
    as (_ & Hiff & Hex & _).
  split; [exact (proj1 (Hex (VString "oops")))|].
  apply Hiff. exists [UncaughtException (VString "oops")], (IntervalFired 0 true), [].
  split; [reflexivity|]. split; reflexivity.
Defined.

Lemma no_workspace_no_checks_witness :
  alive (connected sampleHost noWorkspaceInit) = true
  ∧ workspace noWorkspaceInit = None
  ∧ ∃ before,
      fileChecks (before ++ testEvents sampleHost (env noWorkspaceInit)) = []
      ∧ activationRequests (before ++ testEvents sampleHost (env noWorkspaceInit)) = ["*"]
      ∧ stage (step sampleHost (connected sampleHost noWorkspaceInit) ScanSettled)
        = RunningTests.
Proof.
  split; [reflexivity|]. split; [reflexivity|].
  destruct (no_workspace_no_checks sampleHost (connected sampleHost noWorkspaceInit)
              noWorkspaceInit eq_refl eq_refl eq_refl (or_introl eq_refl))
    as (before & _ & Hf & Ha & Hst & _).
  exists before. split; [exact Hf|]. split; [exact Ha|exact Hst].
Defined.


(** * More about the driver *)

(** ** The merged collection *)













(** ** What eager activation checks and requests, and nothing else *)


(** ** The send statistics *)

Lemma run_sends k s datas :
  alive s = true → renderer s ≠ None →
  trace (run k s (RemoteSend <$> datas)) = trace s ++ (Send <$> datas)
  ∧ stats (run k s (RemoteSend <$> datas)) = stats s ++ (String.length <$> datas)
  ∧ sameWiring s (run k s (RemoteSend <$> datas))
  ∧ alive (run k s (RemoteSend <$> datas)) = true.
Proof.
  revert s. induction datas as [|data datas IH]; intros s Ha Hr.
  - simpl. by rewrite !app_nil_r.
  - rewrite fmap_cons, run_cons.
    assert (step k s (RemoteSend data)
            = set_stats (stats s ++ [String.length data]) (emit (Send data) s)) as ->.
    { unfold step. rewrite Ha. simpl. by destruct (renderer s). }
    destruct (IH (set_stats (stats s ++ [String.length data]) (emit (Send data) s)))
      as (Ht&Hst&Hw&Hal); [done..|].
    rewrite Ht, Hst. simpl. by rewrite <- !app_assoc.
Qed.

Lemma step_tick k s killThrows :
  alive s = true → renderer s ≠ None → wired s →
  trace (step k s (IntervalFired 1 killThrows)) = trace s ++ statsWarnings (stats s)
  ∧ stats (step k s (IntervalFired 1 killThrows)) = []
  ∧ sameWiring s (step k s (IntervalFired 1 killThrows))
  ∧ alive (step k s (IntervalFired 1 killThrows)) = true.
Proof.
  intros Ha Hr Hw. unfold wired in Hw. destruct (renderer s); [|done].
  destruct Hw as (_&_&Hi). unfold step. rewrite Ha, Hi. simpl.
  unfold checkStats, statsWarnings. case_bool_decide; simpl;
    by rewrite <- ?app_assoc, ?app_nil_r.
Qed.

(** X6. Once Init Data has arrived, between two ticks of the 1000 ms
    interval every message the remote registry sends goes out, in order,
    and none is held back; the second tick writes the two warnings exactly
    when at least 250 messages were sent since the first, with their number
    and the sum of their lengths, and starts counting afresh. Neither tick
    ends the process. *)
Theorem send_statistics k before datas killThrows1 killThrows2 :
  alive (run k boot before) = true → renderer (run k boot before) ≠ None →
  let s := step k (run k boot before) (IntervalFired 1 killThrows1) in
  let s' := run k s (RemoteSend <$> datas) in
  trace s' = trace s ++ (Send <$> datas)
  ∧ trace (step k s' (IntervalFired 1 killThrows2))
    = trace s' ++ statsWarnings (String.length <$> datas)
  ∧ stats (step k s' (IntervalFired 1 killThrows2)) = []
  ∧ alive (step k s' (IntervalFired 1 killThrows2)) = true.
Proof.
  intros Ha Hr. simpl.
  assert (wired (run k boot before)) as Hw by apply wired_run, wired_boot.
  destruct (step_tick k _ killThrows1 Ha Hr Hw) as (_&Hst&Hsw&Ha1).
  set (s := step k (run k boot before) (IntervalFired 1 killThrows1)) in *.
  assert (renderer s ≠ None) as Hr1 by (destruct Hsw as (_&_&_&->); done).
  assert (wired s) as Hw1 by by eapply wired_sameWiring.
  destruct (run_sends k s datas Ha1 Hr1) as (Ht&Hst'&Hsw'&Ha2).
  set (s' := run k s (RemoteSend <$> datas)) in *.
  assert (renderer s' ≠ None) as Hr2 by (destruct Hsw' as (_&_&_&->); done).
  assert (wired s') as Hw2 by by eapply wired_sameWiring.
  destruct (step_tick k s' killThrows2 Ha2 Hr2 Hw2) as (Ht2&Hst2&_&Ha3).
  rewrite Hst', Hst in Ht2. done.
Qed.

(** ** The callback of the test runner *)

Lemma step_RunnerCallback_again k s error r :
  alive s = true → runner s = true → stage s = Done r →
  step k s (RunnerCallback error) = setTimeout_exit 800 s.
Proof.
  intros Ha Hru Hs. unfold step. rewrite Ha, Hru. simpl.
  unfold runnerCallback. by rewrite Hs.
Qed.

Lemma run_callbacks_again k s errors r :
  alive s = true → runner s = true → stage s = Done r →
  stage (run k s (RunnerCallback <$> errors)) = Done r
  ∧ timeouts (run k s (RunnerCallback <$> errors))
    = timeouts s ++ replicate (length errors) 800
  ∧ consoleErrors (trace (run k s (RunnerCallback <$> errors))) = consoleErrors (trace s)
  ∧ alive (run k s (RunnerCallback <$> errors)) = true.
Proof.
  revert s. induction errors as [|e errors IH]; intros s Ha Hru Hs.
  - simpl. by rewrite app_nil_r.
  - rewrite fmap_cons, run_cons, (step_RunnerCallback_again k s e r) by done.
    destruct (IH (setTimeout_exit 800 s)) as (Hst&Hti&Hce&Hal); [done..|].
    rewrite Hst, Hti, Hce. simpl. rewrite <- app_assoc.
    repeat split; try done. unfold consoleErrors. by rewrite omap_app, app_nil_r.
Qed.

(** X7. While the test runner is awaited, its first callback decides how
    [start()] ends: with the error it passes, written once to the console,
    or successfully. Further callbacks change neither that outcome nor the
    console; each call, the first included, sets one more exit timer of
    800 ms, and none of them ends the process by itself. *)
Theorem runner_callbacks k s error errors :
  alive s = true → runner s = true → stage s = RunningTests →
  stage (run k s (RunnerCallback <$> error :: errors))
  = Done (match error with Some e => Failed (VString e) | None => Completed () end)
  ∧ timeouts (run k s (RunnerCallback <$> error :: errors))
    = timeouts s ++ replicate (S (length errors)) 800
  ∧ consoleErrors (trace (run k s (RunnerCallback <$> error :: errors)))
    = consoleErrors (trace s)
      ++ match error with Some e => [VString e] | None => [] end
  ∧ alive (run k s (RunnerCallback <$> error :: errors)) = true.
Proof.
  intros Ha Hru Hs. rewrite fmap_cons, run_cons.
  assert (step k s (RunnerCallback error) = runnerCallback error s) as ->
    by (unfold step; by rewrite Ha, Hru).
  set (r := match error with Some e => Failed (VString e) | None => Completed () end).
  destruct (run_callbacks_again k (runnerCallback error s) errors r)
    as (Hst&Hti&Hce&Hal).
  { unfold runnerCallback. rewrite Hs. by destruct error. }
  { unfold runnerCallback. rewrite Hs. by destruct error. }
  { unfold runnerCallback. rewrite Hs. by destruct error. }
  rewrite Hst, Hti, Hce. split; [done|]. split; [|split; [|done]].
  - unfold runnerCallback. rewrite Hs. destruct error; simpl;
      by rewrite <- app_assoc.
  - unfold runnerCallback, consoleErrors. rewrite Hs.
    destruct error; simpl; rewrite !omap_app; simpl; by rewrite ?app_nil_r.
Qed.

(** ** What a step does to the stage, the timers and the runner *)

Lemma timers_requestActivation k a s :
  timeouts (requestActivation k a s) = timeouts s
  ∧ runner (requestActivation k a s) = runner s.
Proof. unfold requestActivation. by destruct (activateByEvent k a). Qed.

Lemma timers_foldl {A} (f : State → A → State) l s :
  (∀ s x, timeouts (f s x) = timeouts s ∧ runner (f s x) = runner s) →
  timeouts (foldl f s l) = timeouts s ∧ runner (foldl f s l) = runner s.
Proof.
  intros Hf. revert s. induction l as [|x l IH]; intros s; simpl; [done|].
  destruct (IH (f s x)) as [-> ->]. apply Hf.
Qed.

Lemma timers_handlePluginTests k e s :
  timeouts (handlePluginTests k e s) = timeouts s ++ exitTimers (testStage k e)
  ∧ runner (handlePluginTests k e s) = runner s || running (testStage k e).
Proof.
  unfold testStage. destruct (testsConfigured e) eqn:E.
  - rewrite handlePluginTests_run by done. simpl.
    destruct (nodeRequire k _) as [|[]]; simpl;
      by rewrite ?app_nil_r, ?orb_false_r, ?orb_true_r.
  - rewrite handlePluginTests_skip by done. simpl.
    by rewrite app_nil_r, orb_false_r.
Qed.

Lemma timers_filesChecked k init folderPath fileNames s :
  timeouts (filesChecked k init folderPath fileNames s)
  = timeouts s ++ exitTimers (testStage k (env init))
  ∧ runner (filesChecked k init folderPath fileNames s)
    = runner s || running (testStage k (env init)).
Proof.
  unfold filesChecked.
  destruct (timers_handlePluginTests k (env init)
    (foldl (λ s existingFileName,
              if truthy existingFileName
              then requestActivation k (workspaceContains +:+ str existingFileName) s
              else s)
       (emit FileChecksJoined s)
       (map (λ fileName,
               fileExistsWithResult k (paths_join k folderPath fileName) fileName)
          fileNames))) as [-> ->].
  destruct (timers_foldl
    (λ s existingFileName,
       if truthy existingFileName
       then requestActivation k (workspaceContains +:+ str existingFileName) s
       else s)
    (map (λ fileName,
            fileExistsWithResult k (paths_join k folderPath fileName) fileName)
       fileNames) (emit FileChecksJoined s)) as [-> ->]; [|done].
  intros s' r. destruct (truthy r); [apply timers_requestActivation|done].
Qed.

Lemma exitTimers_checking folderPath fileNames :
  exitTimers (CheckingFiles folderPath fileNames) = []
  ∧ running (CheckingFiles folderPath fileNames) = false.
Proof. done. Qed.

Lemma timers_pluginsScanned k init s :
  timeouts (pluginsScanned k init s)
  = timeouts s ++ exitTimers (eagerStage k init (registered k init))
  ∧ runner (pluginsScanned k init s)
    = runner s || running (eagerStage k init (registered k init)).
Proof.
  unfold pluginsScanned, registerPlugins, registrationDone, handleEagerPlugins,
    handleWorkspaceContainsEagerPlugins, getAllPluginDescriptions, eagerStage, desiredFiles.
  fold (scanned k init). fold (registered k init). fold (signalled k init).
  set (s1 := requestActivation k "*" _).
  assert (timeouts s1 = timeouts s ∧ runner s1 = runner s) as [Ht Hr].
  { unfold s1. by rewrite (proj1 (timers_requestActivation _ _ _)),
      (proj2 (timers_requestActivation _ _ _)). }
  assert (registry s1 = registered k init) as ->
    by (unfold s1; by rewrite registry_requestActivation).
  destruct (workspace init) as [[[folderPath|]]|].
  2,3: destruct (timers_handlePluginTests k (env init) s1) as [-> ->];
    by rewrite Ht, Hr.
  set (s2 := foldl _ s1 _).
  assert (timeouts s2 = timeouts s1 ∧ runner s2 = runner s1) as [Ht2 Hr2]
    by (apply timers_foldl; by intros).
  destruct (map_to_list _).*1 eqn:E.
  - destruct (timers_filesChecked k init folderPath [] s2) as [-> ->].
    by rewrite Ht2, Hr2, Ht, Hr.
  - simpl. by rewrite Ht2, Hr2, Ht, Hr, app_nil_r, orb_false_r.
Qed.

Lemma startIfJoined_kinds k s :
  startIfJoined k s = s
  ∨ (stage s = Connecting ∧ renderer s ≠ None ∧ shared s = true
     ∧ stage (startIfJoined k s) = Scanning
     ∧ timeouts (startIfJoined k s) = timeouts s
     ∧ runner (startIfJoined k s) = runner s).
Proof.
  unfold startIfJoined.
  destruct (renderer s) as [init|], (shared s), (stage s) eqn:Hs; auto.
  right. rewrite stage_readPlugins. repeat split; try done.
  all: unfold readPlugins;
    by destruct (truthy (userPluginsHome _)), (truthy (pluginDevelopmentPath _)).
Qed.

(** The kinds of steps, by what they do to the stage, the timers and the
    runner. *)
Lemma step_kinds k s i :
  wired s →
  (stage (step k s i) = stage s ∧ timeouts (step k s i) = timeouts s
   ∧ runner (step k s i) = runner s)
  ∨ (stage s = Connecting ∧ stage (step k s i) = Scanning
     ∧ timeouts (step k s i) = timeouts s ∧ runner (step k s i) = runner s)
  ∨ (∃ init, alive s = true ∧ stage s = Scanning ∧ renderer s = Some init
             ∧ step k s i = pluginsScanned k init s)
  ∨ (∃ init folderPath fileNames,
       alive s = true ∧ stage s = CheckingFiles folderPath fileNames
       ∧ renderer s = Some init
       ∧ step k s i = filesChecked k init folderPath fileNames s)
  ∨ (∃ error, i = RunnerCallback error ∧ alive s = true ∧ runner s = true
              ∧ step k s i = runnerCallback error s)
  ∨ (∃ n, is_Some (timeouts s !! n) ∧ stage (step k s i) = stage s
          ∧ runner (step k s i) = runner s
          ∧ timeouts (step k s i) = delete n (timeouts s)).
Proof.
  intros Hw. destruct (alive s) eqn:Ha.
  2: { left. unfold step. by rewrite Ha. }
  destruct i.
  - destruct (renderer s) as [init|] eqn:Hr.
    + rewrite step_dispatch by (by rewrite ?Hr). by left.
    + destruct (step_init k s msg Ha Hr Hw) as (s1&->&_&_&_&_&_&Hst&Hti&_&Hru).
      destruct (startIfJoined_kinds k s1) as [->|(Hc&_&_&Hs&Ht&Hrn)].
      * left. by rewrite Hst, Hti, Hru.
      * right; left. rewrite Hs, Ht, Hrn, Hti, Hru, <- Hst. done.
  - unfold step. rewrite Ha. simpl. destruct (shared s); [by left|].
    destruct (startIfJoined_kinds k (set_shared true s)) as [->|(Hc&_&_&Hs&Ht&Hrn)].
    + by left.
    + right; left. by rewrite Hs, Ht, Hrn.
  - left. unfold step. rewrite Ha. simpl. by destruct (renderer s).
  - left. unfold step. rewrite Ha. simpl. by destruct (handlers s).
  - left. unfold step. rewrite Ha. simpl. by destruct (handlers s).
  - left. unfold step. rewrite Ha. simpl.
    destruct (intervals s !! n) as [[ms []]|]; [| |done].
    + by destruct killThrows.
    + unfold checkStats. by case_bool_decide.
  - destruct (stage s) eqn:Hs, (renderer s) as [init|] eqn:Hr;
      try (left; unfold step; rewrite Ha, Hs, ?Hr; simpl; by rewrite ?Hs).
    do 2 right; left. exists init. by rewrite (step_ScanSettled k s init).
  - destruct (stage s) eqn:Hs, (renderer s) as [init|] eqn:Hr;
      try (left; unfold step; rewrite Ha, Hs, ?Hr; simpl; by rewrite ?Hs).
    do 3 right; left. exists init, folderPath, fileNames.
    by rewrite (step_FilesSettled k s init folderPath fileNames).
  - left. unfold step. rewrite Ha. simpl. destruct (inflight s !! n); [|done].
    by destruct err.
  - destruct (runner s) eqn:Hru.
    + do 4 right; left. exists error. unfold step. by rewrite Ha, Hru.
    + left. unfold step. by rewrite Ha, Hru.
  - destruct (timeouts s !! n) eqn:E.
    + do 5 right. exists n. unfold step. rewrite Ha, E. simpl. by repeat split.
    + left. unfold step. by rewrite Ha, E.
Qed.

(** ** No exit before [start()] has settled *)

Lemma settled_testStage k e :
  running (testStage k e) = true ∨ settled (testStage k e) = true.
Proof.
  unfold testStage. destruct (testsConfigured e); [|by right].
  destruct (nodeRequire k _) as [|[]]; auto.
Qed.

Lemma exitTimers_settled st : settled st = false → exitTimers st = [].
Proof. by destruct st. Qed.

Lemma timersFollowStage_boot : timersFollowStage boot.
Proof. by split. Qed.

Lemma timersFollowStage_step k s i :
  wired s → timersFollowStage s → timersFollowStage (step k s i).
Proof.
  intros Hw [HA HB].
  destruct (step_kinds k s i Hw)
    as [(Hs&Ht&Hr)|[(Hc&Hs&Ht&Hr)|[(init&Ha&Hs&Hre&->)|[(init&f&names&Ha&Hs&Hre&->)
        |[(e&_&Ha&Hru&->)|(n&Hn&Hs&Hr&Ht)]]]]].
  - split; rewrite ?Hs, ?Ht, ?Hr; done.
  - rewrite Hc in HA, HB. split; rewrite ?Hs, ?Ht, ?Hr; [by intros; apply HA|].
    intros H. by destruct (HB H).
  - rewrite Hs in HA, HB.
    destruct (timers_pluginsScanned k init s) as [Ht Hr].
    unfold timersFollowStage. rewrite stage_pluginsScanned, Ht, Hr. split.
    + intros Hns. by rewrite HA, exitTimers_settled.
    + destruct (runner s) eqn:Hru; [by destruct HB|]. simpl.
      destruct (eagerStage k init (registered k init)); auto; discriminate.
  - rewrite Hs in HA, HB.
    destruct (timers_filesChecked k init f names s) as [Ht Hr].
    unfold timersFollowStage. rewrite stage_filesChecked, Ht, Hr. split.
    + intros Hns. by rewrite HA, exitTimers_settled.
    + intros _. apply settled_testStage.
  - specialize (HB Hru). unfold runnerCallback, timersFollowStage.
    destruct (stage s) eqn:Hs; try (by destruct HB).
    + destruct e; simpl; rewrite ?Hs; (split; [done|by right]).
    + simpl. rewrite ?Hs. split; [done|by right].
  - split; rewrite ?Hs, ?Hr, ?Ht; [|done].
    intros Hns. rewrite (HA Hns) in Hn. by destruct Hn.
Qed.

Lemma timersFollowStage_run k s inputs :
  wired s → timersFollowStage s → timersFollowStage (run k s inputs).
Proof.
  revert s. induction inputs as [|i inputs IH]; intros s Hw Ht; [done|].
  apply IH; [by apply wired_step|by apply timersFollowStage_step].
Qed.

(** X8. In every run: as long as [start()] has not settled, that is while
    the process connects, scans, checks files or waits for the test
    runner, no timer of [process.exit()] is set; and the test runner has
    been called only if the test stage was reached. *)
Theorem no_exit_before_settled k inputs :
  settled (stage (run k boot inputs)) = false →
  timeouts (run k boot inputs) = []
  ∧ (runner (run k boot inputs) = true → stage (run k boot inputs) = RunningTests).
Proof.
  intros Hns.
  destruct (timersFollowStage_run k boot inputs wired_boot timersFollowStage_boot)
    as [HA HB].
  split; [by apply HA|]. intros Hru. destruct (HB Hru) as [H|H]; [|congruence].
  by destruct (stage _).
Qed.

(** ** The start of the driver *)

Lemma startIfJoined_spec k s :
  (renderer s ≠ None ∧ shared s = true ∧ stage s = Connecting
   ∧ stage (startIfJoined k s) = Scanning)
  ∨ ((renderer s = None ∨ shared s = false ∨ stage s ≠ Connecting)
     ∧ startIfJoined k s = s).
Proof.
  unfold startIfJoined.
  destruct (renderer s) as [init|], (shared s), (stage s) eqn:Hs;
    try (right; split; [auto|done]).
  left. by rewrite stage_readPlugins.
Qed.

Lemma startedWhenJoined_same s s' :
  (stage s' = Connecting ↔ stage s = Connecting) →
  renderer s' = renderer s → shared s' = shared s →
  startedWhenJoined s → startedWhenJoined s'.
Proof. unfold startedWhenJoined. intros -> -> ->. done. Qed.

Lemma startedWhenJoined_boot : startedWhenJoined boot.
Proof. split; [by left|done]. Qed.

Lemma eagerStage_started k init descs : eagerStage k init descs ≠ Connecting.
Proof.
  unfold eagerStage, testStage.
  destruct (workspace init) as [[[folderPath|]]|]; [destruct (desiredFiles descs)|..];
    try done; destruct (testsConfigured _); try done;
    by destruct (nodeRequire k _) as [|[]].
Qed.

Lemma startedWhenJoined_step k s i :
  wired s → startedWhenJoined s → startedWhenJoined (step k s i).
Proof.
  intros Hw Hj. destruct (alive s) eqn:Ha; [|unfold step; by rewrite Ha].
  destruct i.
  - destruct (renderer s) as [init|] eqn:Hr.
    + rewrite step_dispatch by (by rewrite ?Hr).
      by apply (startedWhenJoined_same s).
    + destruct (step_init k s msg Ha Hr Hw) as (s1&->&_&Hr1&_&_&Hsh&Hst&_).
      assert (stage s = Connecting) as Hc by (apply Hj; by left).
      destruct (sameProcess_startIfJoined k s1) as (_&_&_&_&_&Hre&Hsha).
      unfold startedWhenJoined. rewrite Hre, Hsha, Hr1.
      destruct (startIfJoined_spec k s1) as [(_&Hs1&_&->)|([H|[H|H]]&->)].
      * rewrite Hs1. split; [done|]. by intros [|].
      * congruence.
      * rewrite H, Hst. split; [by right|done].
      * congruence.
  - unfold step. rewrite Ha. simpl. destruct (shared s) eqn:Hsh; [done|].
    assert (stage s = Connecting) as Hc by (apply Hj; by right).
    destruct (sameProcess_startIfJoined k (set_shared true s)) as (_&_&_&_&_&Hre&Hsha).
    unfold startedWhenJoined. rewrite Hre, Hsha. simpl.
    destruct (startIfJoined_spec k (set_shared true s))
      as [(Hr&_&_&->)|([H|[H|H]]&->)]; simpl in *.
    + split; [done|]. by intros [|].
    + rewrite H, Hc. split; [by left|done].
    + done.
    + done.
  - apply (startedWhenJoined_same s); [..|done];
      unfold step; rewrite Ha; simpl;
      destruct (renderer s) eqn:E; simpl; by rewrite ?E.
  - apply (startedWhenJoined_same s); [..|done];
      unfold step; rewrite Ha; simpl; by destruct (handlers s).
  - apply (startedWhenJoined_same s); [..|done];
      unfold step; rewrite Ha; simpl; by destruct (handlers s).
  - apply (startedWhenJoined_same s); [..|done];
      unfold step; rewrite Ha; simpl;
      (destruct (intervals s !! n) as [[ms []]|]; [| |done];
       [by destruct killThrows|unfold checkStats; by case_bool_decide]).
  - destruct (stage s) eqn:Hs, (renderer s) as [init|] eqn:Hr;
      try (unfold step; rewrite Ha, Hs, ?Hr; done).
    rewrite (step_ScanSettled k s init) by done.
    destruct (sameProcess_pluginsScanned k init s) as (_&_&_&_&_&Hre&Hsha).
    apply (startedWhenJoined_same s); [|done..].
    rewrite stage_pluginsScanned, Hs. split; [|done].
    intros H. by apply eagerStage_started in H.
  - destruct (stage s) eqn:Hs, (renderer s) as [init|] eqn:Hr;
      try (unfold step; rewrite Ha, Hs, ?Hr; done).
    rewrite (step_FilesSettled k s init folderPath fileNames) by done.
    destruct (sameProcess_filesChecked k init folderPath fileNames s)
      as (_&_&_&_&_&Hre&Hsha).
    apply (startedWhenJoined_same s); [|done..].
    rewrite stage_filesChecked, Hs. split; [|done].
    intros H. pose proof (stageBound_testStage k (env init)) as Hb.
    by rewrite H in Hb.
  - apply (startedWhenJoined_same s); [..|done];
      unfold step; rewrite Ha; simpl;
      (destruct (inflight s !! n); [|done]; by destruct err).
  - unfold step. rewrite Ha. simpl. destruct (runner s); [|done].
    destruct (sameProcess_runnerCallback error s) as (_&_&_&_&_&Hre&Hsha).
    apply (startedWhenJoined_same s); [|done..].
    unfold runnerCallback. destruct (stage s) eqn:Hs; simpl; rewrite ?Hs; try done.
    by destruct error.
  - apply (startedWhenJoined_same s); [..|done];
      unfold step; rewrite Ha; simpl; by destruct (timeouts s !! n).
Qed.

Lemma startedWhenJoined_run k s inputs :
  wired s → startedWhenJoined s → startedWhenJoined (run k s inputs).
Proof.
  revert s. induction inputs as [|i inputs IH]; intros s Hw Hj; [done|].
  apply IH; [by apply wired_step|by apply startedWhenJoined_step].
Qed.

(** X9. In every run [start()] has been called exactly when both
    connections are made, in whichever order they were: the stage is still
    [Connecting] if and only if Init Data has not arrived or the shared
    process is not connected. *)
Theorem started_when_joined k inputs :
  stage (run k boot inputs) = Connecting ↔
  renderer (run k boot inputs) = None ∨ shared (run k boot inputs) = false.
Proof. apply (startedWhenJoined_run k boot inputs wired_boot startedWhenJoined_boot). Qed.

(** ** The wiring stays *)

Lemma run_sameWiring k s inputs :
  wired s → renderer s ≠ None → sameWiring s (run k s inputs).
Proof.
  revert s. induction inputs as [|i inputs IH]; intros s Hw Hr; [done|].
  rewrite run_cons. etrans; [apply (step_sameWiring k s i); by intros|].
  apply IH; [by apply wired_step|by apply renderer_step].
Qed.

(** X10. Once Init Data has arrived nothing replaces it, whatever comes
    later: the Init Data, the single dispatch listener, the error handlers
    and the two intervals (the probe of that Init Data's parent every
    5000 ms, the statistics every 1000 ms) are the same after any further
    callbacks. *)
Theorem wiring_stays k before after init :
  renderer (run k boot before) = Some init →
  renderer (run k (run k boot before) after) = Some init
  ∧ listeners (run k (run k boot before) after) = [DispatchListener]
  ∧ handlers (run k (run k boot before) after) = true
  ∧ intervals (run k (run k boot before) after)
    = [(5000, ProbeParent (parentPid init)); (1000, CheckStats)].
Proof.
  intros Hr. assert (wired (run k boot before)) as Hw by apply wired_run, wired_boot.
  destruct (run_sameWiring k (run k boot before) after Hw) as (Hl&Hh&Hi&Hre).
  { by rewrite Hr. }
  unfold wired in Hw. rewrite Hr in Hw. destruct Hw as (?&?&?).
  rewrite Hl, Hh, Hi, Hre. done.
Qed.

(** ** Without a test configuration *)

Lemma renderer_step_cases k s i :
  wired s →
  renderer (step k s i) = renderer s
  ∨ ∃ msg, i = ParentMessage msg ∧ renderer (step k s i) = Some msg.
Proof.
  intros Hw. destruct (alive s) eqn:Ha; [|left; unfold step; by rewrite Ha].
  destruct (renderer s) as [init|] eqn:Hr.
  - left. rewrite <- Hr. apply (step_sameWiring k s i Hw). intros. by rewrite Hr.
  - destruct i as [msg| | | | | | | | | |].
    { right. exists msg. split; [done|].
      destruct (step_init k s msg Ha Hr Hw) as (s1&->&_&Hr1&_).
      by destruct (sameProcess_startIfJoined k s1) as (_&_&_&_&_&->&_). }
    all: left; rewrite <- Hr; by apply (step_sameWiring k s _ Hw).
Qed.

Lemma testStage_noTests k e : testsConfigured e = false → testStage k e = Done (Completed ()).
Proof. unfold testStage. by intros ->. Qed.

Lemma noTests_boot : noTests boot.
Proof. by repeat split. Qed.

Lemma noTests_step k s i :
  wired s → (∀ msg, i = ParentMessage msg → testsConfigured (env msg) = false) →
  noTests s → noTests (step k s i).
Proof.
  intros Hw Hi (Ht&Hru&Hnr&Hd&Hc).
  assert (∀ init, renderer (step k s i) = Some init → testsConfigured (env init) = false)
    as Hc'.
  { intros init. destruct (renderer_step_cases k s i Hw) as [->|(msg&->&->)]; [apply Hc|].
    intros [= <-]. by apply Hi. }
  destruct (step_kinds k s i Hw)
    as [(Hs&Hti&Hr)|[(Hcn&Hs&Hti&Hr)|[(init&Ha&Hs&Hre&Hst)|[(init&f&names&Ha&Hs&Hre&Hst)
        |[(e&_&Ha&Hru'&_)|(n&Hn&_)]]]]].
  - unfold noTests. by rewrite Hs, Hti, Hr.
  - unfold noTests. rewrite Hs, Hti, Hr. by repeat split.
  - unfold noTests. revert Hc'. rewrite Hst. intros Hc'.
    destruct (timers_pluginsScanned k init s) as [-> ->].
    rewrite stage_pluginsScanned, Ht, Hru. unfold eagerStage.
    rewrite (testStage_noTests k (env init)) by by apply Hc.
    destruct (workspace init) as [[[folderPath|]]|]; [destruct (desiredFiles _)|..];
      repeat split; try done; by intros ? [= <-].
  - unfold noTests. revert Hc'. rewrite Hst. intros Hc'.
    destruct (timers_filesChecked k init f names s) as [-> ->].
    rewrite stage_filesChecked, Ht, Hru.
    rewrite (testStage_noTests k (env init)) by by apply Hc.
    repeat split; try done; by intros ? [= <-].
  - congruence.
  - rewrite Ht in Hn. by destruct Hn.
Qed.

Lemma noTests_run k s inputs :
  wired s → (∀ msg, ParentMessage msg ∈ inputs → testsConfigured (env msg) = false) →
  noTests s → noTests (run k s inputs).
Proof.
  revert s. induction inputs as [|i inputs IH]; intros s Hw Hi Hn; [done|].
  apply IH; [by apply wired_step|intros; apply Hi; by right|].
  apply noTests_step; [done| |done]. intros msg ->. apply Hi. left.
Qed.

(** X11. When no message on the parent channel carries both a tests path
    and a development path, then in every run no timer of [process.exit()]
    is ever set, the test runner is never called, and [start()] can only
    end successfully. *)
Theorem no_tests_no_exit k inputs :
  (∀ msg, ParentMessage msg ∈ inputs → testsConfigured (env msg) = false) →
  timeouts (run k boot inputs) = []
  ∧ runner (run k boot inputs) = false
  ∧ stage (run k boot inputs) ≠ RunningTests
  ∧ ∀ r, stage (run k boot inputs) = Done r → r = Completed ().
Proof.
  intros Hi.
  destruct (noTests_run k boot inputs wired_boot Hi noTests_boot) as (?&?&?&?&_).
  done.
Qed.

(** ** What happens once *)

Lemma occurrences_app `{EqDecision A} (x : A) l1 l2 :
  occurrences x (l1 ++ l2) = occurrences x l1 + occurrences x l2.
Proof. unfold occurrences. by rewrite filter_app, length_app. Qed.

Lemma occurrences_band p lo hi l :
  band lo hi l → p < lo ∨ hi < p → occurrences p l = 0.
Proof.
  intros [_ Hf] Hp. apply occurrences_absent. intros Hin.
  rewrite Forall_forall in Hf. specialize (Hf _ Hin). lia.
Qed.

Lemma phases_scannedEvents k init :
  phases (scannedEvents k init)
  = [1; 2; 3; 4] ++ phases (workspaceEvents k init (registered k init)).
Proof.
  unfold scannedEvents, eagerEvents.
  change (ScansJoined :: ?a :: ?b :: ?l) with ([ScansJoined; a; b] ++ l).
  by rewrite !phases_app, phases_requestEvents.
Qed.

Lemma occurrences_scannedEvents k init p :
  p ∈ [1; 2; 3; 4] → occurrences p (phases (scannedEvents k init)) = 1.
Proof.
  intros Hp. rewrite phases_scannedEvents, occurrences_app.
  rewrite (occurrences_band p 5 _ _ (band_workspaceEvents k init _)).
  - repeat (apply elem_of_cons in Hp as [->|Hp]; [done|]). by apply elem_of_nil in Hp.
  - left. repeat (apply elem_of_cons in Hp as [->|Hp]; [lia|]). by apply elem_of_nil in Hp.
Qed.

Lemma stageBound_cases st : stageBound st = 0 ∨ 5 ≤ stageBound st.
Proof. destruct st; simpl; auto; lia. Qed.

Lemma onceOnly_boot : onceOnly boot.
Proof. intros p _. done. Qed.

Lemma onceOnly_step k s i : wired s → onceOnly s → onceOnly (step k s i).
Proof.
  intros Hw Ho p Hp. specialize (Ho p Hp).
  assert (1 ≤ p ≤ 4) as Hp4.
  { repeat (apply elem_of_cons in Hp as [->|Hp]; [lia|]). by apply elem_of_nil in Hp. }
  destruct (step_progress k s i Hw) as (new&Ht&Hb&Hle).
  rewrite Ht, phases_app, occurrences_app, Ho.
  destruct (stageBound_cases (stage s)) as [H0|H5].
  - rewrite decide_True by done.
    destruct (stageBound_cases (stage (step k s i))) as [H0'|H5'].
    + rewrite decide_True by done. rewrite (occurrences_band p _ _ _ Hb); [done|].
      right. lia.
    + rewrite decide_False by lia. simpl.
      destruct (step_kinds k s i Hw)
        as [(Hs&_)|[(_&Hs&_)|[(init&Ha&Hs&Hre&Hst)|[(init&f&names&_&Hs&_)
            |[(e&_&_&_&Hst)|(n&_&Hs&_)]]]]].
      * rewrite Hs in H5'. lia.
      * rewrite Hs in H5'. simpl in H5'. lia.
      * rewrite Hst, trace_pluginsScanned in Ht. apply app_inv_head in Ht as <-.
        by apply occurrences_scannedEvents.
      * rewrite Hs in H0. simpl in H0. lia.
      * rewrite Hst in H5'. unfold runnerCallback in H5'.
        destruct (stage s) eqn:Hs; simpl in *; rewrite ?Hs in H5'; simpl in *; lia.
      * rewrite Hs in H5'. lia.
  - rewrite decide_False by lia. rewrite decide_False by lia.
    rewrite (occurrences_band p _ _ _ Hb); [done|]. left. lia.
Qed.

Lemma onceOnly_run k s inputs : wired s → onceOnly s → onceOnly (run k s inputs).
Proof.
  revert s. induction inputs as [|i inputs IH]; intros s Hw Ho; [done|].
  apply IH; [by apply wired_step|by apply onceOnly_step].
Qed.

(** X12. In every run the join of the scans, the registration of the
    plugins, its done-signal and the wildcard activation request have each
    happened exactly once as soon as the stage is past scanning, and not at
    all before: the registry is written once. *)
Theorem registered_once k inputs :
  occurrences 1 (phases (trace (run k boot inputs)))
  = (if decide (stageBound (stage (run k boot inputs)) = 0) then 0 else 1)
  ∧ occurrences 2 (phases (trace (run k boot inputs)))
    = (if decide (stageBound (stage (run k boot inputs)) = 0) then 0 else 1)
  ∧ occurrences 3 (phases (trace (run k boot inputs)))
    = (if decide (stageBound (stage (run k boot inputs)) = 0) then 0 else 1)
  ∧ occurrences 4 (phases (trace (run k boot inputs)))
    = (if decide (stageBound (stage (run k boot inputs)) = 0) then 0 else 1).
Proof.
  pose proof (onceOnly_run k boot inputs wired_boot onceOnly_boot) as H.
  repeat split; apply H; repeat constructor.
Qed.

(** ** A test runner that does not call back *)

Lemma awaiting_step k s i :
  wired s → (∀ error, i ≠ RunnerCallback error) →
  stage s = RunningTests → timeouts s = [] →
  stage (step k s i) = RunningTests ∧ timeouts (step k s i) = [].
Proof.
  intros Hw Hi Hs Ht.
  destruct (step_kinds k s i Hw)
    as [(Hs'&Ht'&_)|[(Hc&_)|[(init&_&Hs'&_)|[(init&f&names&_&Hs'&_)
        |[(e&->&_)|(n&Hn&_)]]]]]; try congruence.
  - by rewrite Hs', Ht'.
  - rewrite Ht in Hn. by destruct Hn.
Qed.

Lemma awaiting_run k s inputs :
  wired s → Forall (λ i, ∀ error, i ≠ RunnerCallback error) inputs →
  stage s = RunningTests → timeouts s = [] →
  stage (run k s inputs) = RunningTests ∧ timeouts (run k s inputs) = [].
Proof.
  revert s. induction inputs as [|i inputs IH]; intros s Hw Hi Hs Ht; [done|].
  apply Forall_cons in Hi as [Hi His].
  destruct (awaiting_step k s i Hw Hi Hs Ht). apply IH; [by apply wired_step|done..].
Qed.

(** X13. While the test runner is awaited and as long as it does not call
    back, no exit is scheduled and [start()] stays pending, whatever else
    happens; the process then ends if and only if a probe of the parent
    fails. *)
Theorem silent_runner k before after :
  alive (run k boot before) = true → stage (run k boot before) = RunningTests →
  Forall (λ i, ∀ error, i ≠ RunnerCallback error) after →
  stage (run k (run k boot before) after) = RunningTests
  ∧ timeouts (run k (run k boot before) after) = []
  ∧ (alive (run k (run k boot before) after) = false ↔ IntervalFired 0 true ∈ after).
Proof.
  intros Ha Hs Hi. set (s := run k boot before) in *.
  assert (wired s) as Hw by apply wired_run, wired_boot.
  assert (timeouts s = []) as Ht.
  { apply (timersFollowStage_run k boot before wired_boot timersFollowStage_boot).
    fold s. by rewrite Hs. }
  assert (renderer s ≠ None) as Hr.
  { intros Hn.
    pose proof (startedWhenJoined_run k boot before wired_boot startedWhenJoined_boot)
      as Hj. fold s in Hj. destruct Hj as [_ Hj]. rewrite Hj in Hs; [done|by left]. }
  destruct (awaiting_run k s after Hw Hi Hs Ht) as [Hs' Ht'].
  split; [done|]. split; [done|].
  rewrite (run_alive k s after Hw Hr Ha). split.
  - intros (pre&i&post&->&Hpre&Hterm).
    apply Forall_app in Hi as [Hpre' _].
    destruct (awaiting_run k s pre Hw Hpre' Hs Ht) as [_ Htp].
    pose proof (wired_run k s pre Hw) as Hwp. unfold wired in Hwp.
    pose proof (renderer_run k s pre Hr Hw) as Hrp.
    destruct (renderer (run k s pre)) as [init|]; [|done].
    destruct Hwp as (_&_&Hint). unfold terminating in Hterm.
    destruct i; try done.
    + destruct killThrows; [|done]. rewrite Hint in Hterm.
      destruct n as [|[|n]]; try done. apply elem_of_app. right. left.
    + rewrite Htp in Hterm. by apply bool_decide_eq_true in Hterm as [? ?].
  - intros (pre&post&->)%list_elem_of_split.
    destruct (alive (run k s pre)) eqn:Hap.
    + exists pre, (IntervalFired 0 true), post. split; [done|]. split; [done|].
      pose proof (wired_run k s pre Hw) as Hwp. unfold wired in Hwp.
      pose proof (renderer_run k s pre Hr Hw) as Hrp.
      destruct (renderer (run k s pre)) as [init|]; [|done].
      destruct Hwp as (_&_&Hint). unfold terminating. by rewrite Hint.
    + apply (run_alive k s pre Hw Hr Ha) in Hap as (pre'&i&post'&->&Hal&Hterm).
      exists pre', i, (post' ++ IntervalFired 0 true :: post).
      by rewrite <- app_assoc.
Qed.

(** ** The collected messages *)





(** * The further statements at the sample host *)




Lemma send_statistics_witness :
  alive (run sampleHost boot [ParentMessage sampleInit]) = true
  ∧ renderer (run sampleHost boot [ParentMessage sampleInit]) ≠ None
  ∧ trace (step sampleHost
             (run sampleHost
                (step sampleHost (run sampleHost boot [ParentMessage sampleInit])
                   (IntervalFired 1 false))
                (RemoteSend <$> ["ab"; "c"]))
             (IntervalFired 1 false))
    = trace (step sampleHost (run sampleHost boot [ParentMessage sampleInit])
               (IntervalFired 1 false))
      ++ [Send "ab"; Send "c"].
Proof.
  assert (renderer (run sampleHost boot [ParentMessage sampleInit]) ≠ None) as Hr
    by discriminate.
  split; [reflexivity|]. split; [exact Hr|].
  destruct (send_statistics sampleHost [ParentMessage sampleInit] ["ab"; "c"]
              false false eq_refl Hr) as (Ht & Ht2 & _).
  rewrite Ht2, Ht. apply app_nil_r.
Defined.

Lemma runner_callbacks_witness :
  alive (run sampleHost boot toTheRunner) = true
  ∧ runner (run sampleHost boot toTheRunner) = true
  ∧ stage (run sampleHost boot toTheRunner) = RunningTests
  ∧ stage (run sampleHost (run sampleHost boot toTheRunner)
             (RunnerCallback <$> [None; Some "late"]))
    = Done (Completed ())
  ∧ timeouts (run sampleHost (run sampleHost boot toTheRunner)
                (RunnerCallback <$> [None; Some "late"]))
    = [800; 800].
Proof.
  split; [reflexivity|]. split; [reflexivity|]. split; [reflexivity|].
  destruct (runner_callbacks sampleHost (run sampleHost boot toTheRunner) None
              [Some "late"] eq_refl eq_refl eq_refl) as (Hs & Ht & _).
  split; [exact Hs|exact Ht].
Defined.

Lemma no_exit_before_settled_witness :
  settled (stage (run sampleHost boot toTheRunner)) = false
  ∧ timeouts (run sampleHost boot toTheRunner) = [].
Proof.
  split; [reflexivity|].
  exact (proj1 (no_exit_before_settled sampleHost toTheRunner eq_refl)).
Defined.

Lemma wiring_stays_witness :
  renderer (run sampleHost boot [ParentMessage sampleInit]) = Some sampleInit
  ∧ renderer (run sampleHost (run sampleHost boot [ParentMessage sampleInit])
                [ParentMessage noWorkspaceInit; SharedProcessConnected])
    = Some sampleInit.
Proof.
  split; [reflexivity|].
  exact (proj1 (wiring_stays sampleHost [ParentMessage sampleInit]
                  [ParentMessage noWorkspaceInit; SharedProcessConnected]
                  sampleInit eq_refl)).
Defined.

Lemma no_tests_no_exit_witness :
  testsConfigured (env noTestsInit) = false
  ∧ stage (run sampleHost boot
             [ParentMessage noTestsInit; SharedProcessConnected; ScanSettled;
              FilesSettled]) = Done (Completed ())
  ∧ timeouts (run sampleHost boot
                [ParentMessage noTestsInit; SharedProcessConnected; ScanSettled;
                 FilesSettled]) = [].
Proof.
  split; [reflexivity|]. split; [reflexivity|].
  refine (proj1 (no_tests_no_exit sampleHost
                   [ParentMessage noTestsInit; SharedProcessConnected; ScanSettled;
                    FilesSettled] _)).
  intros msg H.
  repeat (apply elem_of_cons in H as [H|H];
          [first [discriminate H | injection H as ->; reflexivity]|]).
  by apply elem_of_nil in H.
Defined.

Lemma silent_runner_witness :
  alive (run sampleHost boot toTheRunner) = true
  ∧ stage (run sampleHost boot toTheRunner) = RunningTests
  ∧ alive (run sampleHost (run sampleHost boot toTheRunner)
             [IntervalFired 1 false; UncaughtException (VString "oops");
              IntervalFired 0 true]) = false.
Proof.
  split; [reflexivity|]. split; [reflexivity|].
  apply (silent_runner sampleHost toTheRunner
           [IntervalFired 1 false; UncaughtException (VString "oops");
            IntervalFired 0 true] eq_refl eq_refl).
  - repeat constructor; discriminate.
  - do 2 right. left.
Defined.

